(** * Floorplan map component: marker styles, hover and click handling

    A shallow embedding of the map component of the seating viewer
    (components/Map.tsx): the static marker configuration, the layout
    computation [calculateMapHeight], the avatar compositor
    [createProfileStyle] with its module-level [styleCache], the desk feature
    constructor [createDeskFeature], and the pointer-move and click handlers
    that the component registers on the map.

    The component is event driven.  Each handler is an [async] function, so it
    runs until it awaits a promise that is still pending and is resumed by the
    event that settles that promise.  The only promises that can stay pending
    are the ones [createProfileStyle] returns while an image is being fetched,
    so one step of the model is one browser task: a pointer move, a click, the
    [load] or [error] event of an image, or the expiry of a timer.

    What the browser and the map library decide is input to the model: whether
    a canvas gives a 2d context, which feature the hit test finds under the
    pointer (it comes with the event), whether and when an image loads or
    fails, and when a timer expires.  Sizes and coordinates are integers, as
    all of them are in the component.  Left out are the [console.log] lines
    (the [console] of the state records the calls of [console.error]), the
    [updateSize] timer, the buttons that close the dialogs, and the teardown
    and rebuild of the map when [mapHeight] changes: [step] follows one map
    from its creation on. *)

From stdpp Require Import gmap strings list fin_maps pretty.
From Stdlib Require Import ZArith QArith.

Open Scope Z_scope.

(** ** Types *)

Definition Coord : Type := Z * Z.

Record Location := { coords : Coord; profile : string }.

Record DeskLocation := { dcoords : Coord; dsize : Z * Z; did : string }.

Record SelectedLocation := { sl_coords : Coord; sl_profile : string }.

Record SelectedDesk := { sd_id : string; sd_coords : Coord }.

(** ** Constants *)

Definition MAP_EXTENT : list Z := [0; 0; 1024; 968].
Definition MIN_MAP_HEIGHT : Z := 400.
Definition MAX_MAP_HEIGHT : Z := 1200.
Definition HEADER_FOOTER_SPACE : Z := 120.
Definition DEFAULT_MARKER_SIZE : Z := 30.
Definition HOVER_MARKER_SIZE : Z := 40.
Definition CLICK_MARKER_SIZE : Z := 45.
Definition CLICK_ANIMATION_DURATION : Z := 200.
Definition DESK_RADIUS : Z := 25.

Definition DEFAULT_LOCATIONS : list Location :=
  [ {| coords := (176, 325); profile := "/profiles/profile1.jpeg" |};
    {| coords := (176, 94); profile := "/profiles/profile2.jpeg" |};
    {| coords := (232, 506); profile := "/profiles/profile3.jpeg" |};
    {| coords := (427, 506); profile := "/profiles/profile4.jpeg" |};
    {| coords := (309, 176); profile := "/profiles/profile1.jpeg" |} ].

Definition DESK_LOCATIONS : list DeskLocation :=
  [ {| dcoords := (176, 255); dsize := (DESK_RADIUS * 2, DESK_RADIUS * 2);
       did := "desk-1" |};
    {| dcoords := (176, 177); dsize := (DESK_RADIUS * 2, DESK_RADIUS * 2);
       did := "desk-2" |};
    {| dcoords := (333, 506); dsize := (DESK_RADIUS * 2, DESK_RADIUS * 2);
       did := "desk-3" |};
    {| dcoords := (525, 506); dsize := (DESK_RADIUS * 2, DESK_RADIUS * 2);
       did := "desk-4" |};
    {| dcoords := (309, 329); dsize := (DESK_RADIUS * 2, DESK_RADIUS * 2);
       did := "desk-5" |};
    {| dcoords := (309, 250); dsize := (DESK_RADIUS * 2, DESK_RADIUS * 2);
       did := "desk-6" |};
    {| dcoords := (309, 96); dsize := (DESK_RADIUS * 2, DESK_RADIUS * 2);
       did := "desk-6" |} ].

(** ** Canvas

    A canvas is its two dimensions and the drawing calls made on its 2d
    context, oldest first.  Every arc of the component sweeps a full circle,
    from angle 0 to 2*pi; the two angles are kept symbolic. *)

Inductive Angle := Zero | TwoPi.

Inductive CanvasOp :=
  | BeginPath
  | Arc (x y radius : Z) (startAngle endAngle : Angle)
  | FillStyle (color : string)
  | Fill
  | Clip
  | DrawImage (src : string) (dx dy dw dh : Z).

Record Canvas := { cwidth : Z; cheight : Z; cops : list CanvasOp }.

(** document.createElement("canvas"): 300 by 150, nothing drawn. *)
Definition createCanvas : Canvas := {| cwidth := 300; cheight := 150; cops := [] |}.

Definition set_width (w : Z) (c : Canvas) : Canvas :=
  {| cwidth := w; cheight := cheight c; cops := cops c |}.

Definition set_height (h : Z) (c : Canvas) : Canvas :=
  {| cwidth := cwidth c; cheight := h; cops := cops c |}.

Definition draw (op : CanvasOp) (c : Canvas) : Canvas :=
  {| cwidth := cwidth c; cheight := cheight c; cops := cops c ++ [op] |}.

(** context.arc throws an IndexSizeError when the radius is negative. *)
Definition arc (x y radius : Z) (a0 a1 : Angle) (c : Canvas) : option Canvas :=
  if radius <? 0 then None else Some (draw (Arc x y radius a0 a1) c).

(** ** Styles

    A style is an object: [sid] is its identity (allocation number), the other
    fields are the options it was constructed with.  [new Style()] has neither
    a fill nor an image. *)

Record Icon := {
  img : Canvas;
  icon_size : Z * Z;
  anchor : Q * Q;
  anchorXUnits : string;
  anchorYUnits : string
}.

Record Style := { sid : nat; fill : option string; image : option Icon }.

Definition deskStyle : Style :=
  {| sid := 0; fill := Some "rgba(0, 255, 0, 0.3)"; image := None |}.

Definition deskHoverStyle : Style :=
  {| sid := 1; fill := Some "rgba(0, 255, 0, 0.5)"; image := None |}.

(** ** Features *)

Inductive Geometry :=
  | Point (c : Coord)
  | Circle (center : Coord) (radius : Z).

(** The property bag of a feature: [type: "profile"] comes with a [profile]
    path, [type: "desk"] with an [id]. *)
Inductive Properties :=
  | ProfileFeature (profilePath : string)
  | DeskFeature (id : string).

Record Feature := {
  geometry : Geometry;
  properties : Properties;
  fstyle : Style
}.

Definition setStyle (s : Style) (f : Feature) : Feature :=
  {| geometry := geometry f; properties := properties f; fstyle := s |}.

Definition createDeskFeature (desk : DeskLocation) : Feature :=
  let '(x, y) := dcoords desk in
  {| geometry := Circle (x, y) DESK_RADIUS;
     properties := DeskFeature (did desk);
     fstyle := deskStyle |}.

(** ** Suspended handlers

    What a handler still has to do once the style it awaits arrives.  Features
    are named by their index in the feature list. *)

Inductive Cont :=
  | KPreload                                         (* Promise.all(preloadPromises) *)
  | KInitStyle (location : Location) (rest : list Location)
  | KHoverRevert (feature : option nat)              (* pointermove, first await *)
  | KHoverApply (feature : nat)                      (* pointermove, second await *)
  | KClickLarge (clickedFeature : nat)               (* click *)
  | KClickRevert (clickedFeature : nat).             (* the timer callback *)

(** An image being fetched for [createProfileStyle]: the arguments and the
    canvas its [onload] closes over, and who awaits the promise. *)
Record Render := { rpath : string; rsize : Z; rcanvas : Canvas }.

Record Request := { render : Render; awaiting : Cont }.

Record Timer := { delay : Z; target : nat }.

(** ** State *)

Record State := {
  canvas2d : bool;                       (* does getContext("2d") give a context *)
  styleCache : gmap string (gmap Z Style);
  nextStyle : nat;
  features : list Feature;               (* desk layer first, then profile layer *)
  hoveredFeature : option nat;
  cursor : string;
  requests : gmap nat Request;
  nextRequest : nat;
  preloading : option nat;               (* promises Promise.all still waits for *)
  timers : gmap nat Timer;
  nextTimer : nat;
  isOpen : bool;
  isDeskModalOpen : bool;
  selectedLocation : option SelectedLocation;
  selectedDesk : option SelectedDesk;
  mapHeight : string;
  console : list string                  (* console.error lines, oldest first *)
}.

(** Field updates.  The [set...] functions with a capital are the React state
    setters of the component. *)

Definition set_styleCache (v : gmap string (gmap Z Style)) (st : State) : State :=
  {| canvas2d := canvas2d st; styleCache := v; nextStyle := nextStyle st;
     features := features st; hoveredFeature := hoveredFeature st;
     cursor := cursor st; requests := requests st; nextRequest := nextRequest st;
     preloading := preloading st; timers := timers st; nextTimer := nextTimer st;
     isOpen := isOpen st; isDeskModalOpen := isDeskModalOpen st;
     selectedLocation := selectedLocation st; selectedDesk := selectedDesk st;
     mapHeight := mapHeight st; console := console st |}.

Definition set_nextStyle (v : nat) (st : State) : State :=
  {| canvas2d := canvas2d st; styleCache := styleCache st; nextStyle := v;
     features := features st; hoveredFeature := hoveredFeature st;
     cursor := cursor st; requests := requests st; nextRequest := nextRequest st;
     preloading := preloading st; timers := timers st; nextTimer := nextTimer st;
     isOpen := isOpen st; isDeskModalOpen := isDeskModalOpen st;
     selectedLocation := selectedLocation st; selectedDesk := selectedDesk st;
     mapHeight := mapHeight st; console := console st |}.

Definition set_features (v : list Feature) (st : State) : State :=
  {| canvas2d := canvas2d st; styleCache := styleCache st;
     nextStyle := nextStyle st; features := v;
     hoveredFeature := hoveredFeature st; cursor := cursor st;
     requests := requests st; nextRequest := nextRequest st;
     preloading := preloading st; timers := timers st; nextTimer := nextTimer st;
     isOpen := isOpen st; isDeskModalOpen := isDeskModalOpen st;
     selectedLocation := selectedLocation st; selectedDesk := selectedDesk st;
     mapHeight := mapHeight st; console := console st |}.

Definition set_hoveredFeature (v : option nat) (st : State) : State :=
  {| canvas2d := canvas2d st; styleCache := styleCache st;
     nextStyle := nextStyle st; features := features st; hoveredFeature := v;
     cursor := cursor st; requests := requests st; nextRequest := nextRequest st;
     preloading := preloading st; timers := timers st; nextTimer := nextTimer st;
     isOpen := isOpen st; isDeskModalOpen := isDeskModalOpen st;
     selectedLocation := selectedLocation st; selectedDesk := selectedDesk st;
     mapHeight := mapHeight st; console := console st |}.

Definition set_cursor (v : string) (st : State) : State :=
  {| canvas2d := canvas2d st; styleCache := styleCache st;
     nextStyle := nextStyle st; features := features st;
     hoveredFeature := hoveredFeature st; cursor := v; requests := requests st;
     nextRequest := nextRequest st; preloading := preloading st;
     timers := timers st; nextTimer := nextTimer st; isOpen := isOpen st;
     isDeskModalOpen := isDeskModalOpen st;
     selectedLocation := selectedLocation st; selectedDesk := selectedDesk st;
     mapHeight := mapHeight st; console := console st |}.

Definition set_requests (v : gmap nat Request) (st : State) : State :=
  {| canvas2d := canvas2d st; styleCache := styleCache st;
     nextStyle := nextStyle st; features := features st;
     hoveredFeature := hoveredFeature st; cursor := cursor st; requests := v;
     nextRequest := nextRequest st; preloading := preloading st;
     timers := timers st; nextTimer := nextTimer st; isOpen := isOpen st;
     isDeskModalOpen := isDeskModalOpen st;
     selectedLocation := selectedLocation st; selectedDesk := selectedDesk st;
     mapHeight := mapHeight st; console := console st |}.

Definition set_nextRequest (v : nat) (st : State) : State :=
  {| canvas2d := canvas2d st; styleCache := styleCache st;
     nextStyle := nextStyle st; features := features st;
     hoveredFeature := hoveredFeature st; cursor := cursor st;
     requests := requests st; nextRequest := v; preloading := preloading st;
     timers := timers st; nextTimer := nextTimer st; isOpen := isOpen st;
     isDeskModalOpen := isDeskModalOpen st;
     selectedLocation := selectedLocation st; selectedDesk := selectedDesk st;
     mapHeight := mapHeight st; console := console st |}.

Definition set_preloading (v : option nat) (st : State) : State :=
  {| canvas2d := canvas2d st; styleCache := styleCache st;
     nextStyle := nextStyle st; features := features st;
     hoveredFeature := hoveredFeature st; cursor := cursor st;
     requests := requests st; nextRequest := nextRequest st; preloading := v;
     timers := timers st; nextTimer := nextTimer st; isOpen := isOpen st;
     isDeskModalOpen := isDeskModalOpen st;
     selectedLocation := selectedLocation st; selectedDesk := selectedDesk st;
     mapHeight := mapHeight st; console := console st |}.

Definition set_timers (v : gmap nat Timer) (st : State) : State :=
  {| canvas2d := canvas2d st; styleCache := styleCache st;
     nextStyle := nextStyle st; features := features st;
     hoveredFeature := hoveredFeature st; cursor := cursor st;
     requests := requests st; nextRequest := nextRequest st;
     preloading := preloading st; timers := v; nextTimer := nextTimer st;
     isOpen := isOpen st; isDeskModalOpen := isDeskModalOpen st;
     selectedLocation := selectedLocation st; selectedDesk := selectedDesk st;
     mapHeight := mapHeight st; console := console st |}.

Definition set_nextTimer (v : nat) (st : State) : State :=
  {| canvas2d := canvas2d st; styleCache := styleCache st;
     nextStyle := nextStyle st; features := features st;
     hoveredFeature := hoveredFeature st; cursor := cursor st;
     requests := requests st; nextRequest := nextRequest st;
     preloading := preloading st; timers := timers st; nextTimer := v;
     isOpen := isOpen st; isDeskModalOpen := isDeskModalOpen st;
     selectedLocation := selectedLocation st; selectedDesk := selectedDesk st;
     mapHeight := mapHeight st; console := console st |}.

Definition setIsOpen (v : bool) (st : State) : State :=
  {| canvas2d := canvas2d st; styleCache := styleCache st;
     nextStyle := nextStyle st; features := features st;
     hoveredFeature := hoveredFeature st; cursor := cursor st;
     requests := requests st; nextRequest := nextRequest st;
     preloading := preloading st; timers := timers st; nextTimer := nextTimer st;
     isOpen := v; isDeskModalOpen := isDeskModalOpen st;
     selectedLocation := selectedLocation st; selectedDesk := selectedDesk st;
     mapHeight := mapHeight st; console := console st |}.

Definition setIsDeskModalOpen (v : bool) (st : State) : State :=
  {| canvas2d := canvas2d st; styleCache := styleCache st;
     nextStyle := nextStyle st; features := features st;
     hoveredFeature := hoveredFeature st; cursor := cursor st;
     requests := requests st; nextRequest := nextRequest st;
     preloading := preloading st; timers := timers st; nextTimer := nextTimer st;
     isOpen := isOpen st; isDeskModalOpen := v;
     selectedLocation := selectedLocation st; selectedDesk := selectedDesk st;
     mapHeight := mapHeight st; console := console st |}.

Definition setSelectedLocation (v : option SelectedLocation) (st : State) : State :=
  {| canvas2d := canvas2d st; styleCache := styleCache st;
     nextStyle := nextStyle st; features := features st;
     hoveredFeature := hoveredFeature st; cursor := cursor st;
     requests := requests st; nextRequest := nextRequest st;
     preloading := preloading st; timers := timers st; nextTimer := nextTimer st;
     isOpen := isOpen st; isDeskModalOpen := isDeskModalOpen st;
     selectedLocation := v; selectedDesk := selectedDesk st;
     mapHeight := mapHeight st; console := console st |}.

Definition setSelectedDesk (v : option SelectedDesk) (st : State) : State :=
  {| canvas2d := canvas2d st; styleCache := styleCache st;
     nextStyle := nextStyle st; features := features st;
     hoveredFeature := hoveredFeature st; cursor := cursor st;
     requests := requests st; nextRequest := nextRequest st;
     preloading := preloading st; timers := timers st; nextTimer := nextTimer st;
     isOpen := isOpen st; isDeskModalOpen := isDeskModalOpen st;
     selectedLocation := selectedLocation st; selectedDesk := v;
     mapHeight := mapHeight st; console := console st |}.

Definition setMapHeight (v : string) (st : State) : State :=
  {| canvas2d := canvas2d st; styleCache := styleCache st;
     nextStyle := nextStyle st; features := features st;
     hoveredFeature := hoveredFeature st; cursor := cursor st;
     requests := requests st; nextRequest := nextRequest st;
     preloading := preloading st; timers := timers st; nextTimer := nextTimer st;
     isOpen := isOpen st; isDeskModalOpen := isDeskModalOpen st;
     selectedLocation := selectedLocation st; selectedDesk := selectedDesk st;
     mapHeight := v; console := console st |}.

Definition set_console (v : list string) (st : State) : State :=
  {| canvas2d := canvas2d st; styleCache := styleCache st;
     nextStyle := nextStyle st; features := features st;
     hoveredFeature := hoveredFeature st; cursor := cursor st;
     requests := requests st; nextRequest := nextRequest st;
     preloading := preloading st; timers := timers st; nextTimer := nextTimer st;
     isOpen := isOpen st; isDeskModalOpen := isDeskModalOpen st;
     selectedLocation := selectedLocation st; selectedDesk := selectedDesk st;
     mapHeight := mapHeight st; console := v |}.

(** ** Layout: [calculateMapHeight] *)

Record Window := { innerHeight : Z; innerWidth : Z }.

(** [None] stands for [typeof window === "undefined"]. *)
Definition calculateMapHeight (window : option Window) (st : State) : State :=
  match window with
  | None => st
  | Some w =>
      let vh := innerHeight w in
      let vw := innerWidth w in
      let calculatedHeight := vh - HEADER_FOOTER_SPACE in
      let constrainedHeight :=
        Z.min (Z.max calculatedHeight MIN_MAP_HEIGHT) MAX_MAP_HEIGHT in
      let constrainedHeight := if vw <? 1024 then 600 else constrainedHeight in
      setMapHeight (pretty constrainedHeight +:+ "px") st
  end.

(** ** The view: [calculateInitialZoom]

    The zoom options that the map effect gives to [new View].  [None] stands
    for a [mapRef.current] that is null. *)

Record ViewOptions := {
  zoom : Z;
  maxZoom : Q;
  minZoom : Q;
  constrainOnlyCenter : bool
}.

Definition calculateInitialZoom (clientWidth : option Z) : Z :=
  match clientWidth with
  | None => 1
  | Some width => if width <? 1024 then 1 else 2
  end.

Definition viewOptions (clientWidth : option Z) : ViewOptions :=
  {| zoom := calculateInitialZoom clientWidth;
     maxZoom := Qmake 7 2;
     minZoom := inject_Z 1;
     constrainOnlyCenter := true |}.

(** ** The style cache

    [styleCache[profilePath]?.[size]] and the two assignments that store a
    style.  The cache object and its inner objects are maps from their own
    keys; a style object is always truthy. *)

Definition cache_get (cache : gmap string (gmap Z Style))
    (profilePath : string) (size : Z) : option Style :=
  cache !! profilePath ≫= λ bySize, bySize !! size.

Definition cache_put (cache : gmap string (gmap Z Style))
    (profilePath : string) (size : Z) (style : Style) : gmap string (gmap Z Style) :=
  let cache :=
    match cache !! profilePath with
    | Some _ => cache
    | None => <[profilePath := ∅]> cache
    end in
  <[profilePath := <[size := style]> (default ∅ (cache !! profilePath))]> cache.

(** ** The avatar compositor: [createProfileStyle] *)

Definition new_Style (fill : option string) (image : option Icon) (st : State)
    : Style * State :=
  ({| sid := nextStyle st; fill := fill; image := image |},
   set_nextStyle (S (nextStyle st)) st).

(** How the promise returned by [createProfileStyle] stands when the call
    returns.  An exception thrown inside the promise executor rejects it. *)
Inductive Settled :=
  | Resolved (style : Style)
  | Pending (r : Render)
  | Rejected.

(** The drawing done by the executor before it starts the image fetch. *)
Definition draw_backdrop (size : Z) : option Canvas :=
  let canvas := createCanvas in
  let borderWidth := 3 in
  let totalSize := size * 2 + borderWidth * 2 in
  let canvas := set_width totalSize canvas in
  let canvas := set_height totalSize canvas in
  (* Draw border *)
  let canvas := draw BeginPath canvas in
  canvas ← arc (totalSize / 2) (totalSize / 2) (size + borderWidth) Zero TwoPi canvas;
  let canvas := draw (FillStyle "#e5e7eb") canvas in
  let canvas := draw Fill canvas in
  (* Create circular clipping path *)
  let canvas := draw BeginPath canvas in
  canvas ← arc (totalSize / 2) (totalSize / 2) size Zero TwoPi canvas;
  Some (draw Clip canvas).

Definition createProfileStyle (profilePath : string) (size : Z) (st : State)
    : Settled * State :=
  match cache_get (styleCache st) profilePath size with
  | Some style => (Resolved style, st)
  | None =>
      if negb (canvas2d st) then
        let '(style, st) := new_Style None None st in (Resolved style, st)
      else
        match draw_backdrop size with
        | Some canvas =>
            (Pending {| rpath := profilePath; rsize := size; rcanvas := canvas |}, st)
        | None => (Rejected, st)
        end
  end.

(** [img.onload] of a pending render. *)
Definition onload (r : Render) (st : State) : Style * State :=
  let size := rsize r in
  let borderWidth := 3 in
  let totalSize := size * 2 + borderWidth * 2 in
  let canvas :=
    draw (DrawImage (rpath r) borderWidth borderWidth (size * 2) (size * 2))
         (rcanvas r) in
  let '(style, st) :=
    new_Style None
      (Some {| img := canvas;
               icon_size := (totalSize, totalSize);
               anchor := (Qmake 1 2, Qmake 1 2);
               anchorXUnits := "fraction";
               anchorYUnits := "fraction" |}) st in
  let st := set_styleCache (cache_put (styleCache st) (rpath r) size style) st in
  (style, st).

(** [img.onerror] of a pending render. *)
Definition onerror (r : Render) (st : State) : Style * State :=
  let st := set_console (console st ++ ["Failed to load image: " +:+ rpath r]) st in
  new_Style None None st.

(** ** Awaiting a style

    [await k resume p]: the handler awaits the promise [p].  When it is
    already resolved the handler goes on in the same task with [resume]; when
    it is pending the handler is parked as [k] with the image request; when it
    is rejected the exception ends the handler. *)

Definition park (r : Render) (k : Cont) (st : State) : State :=
  set_nextRequest (S (nextRequest st))
    (set_requests
       (<[nextRequest st := {| render := r; awaiting := k |}]> (requests st)) st).

Definition await (k : Cont) (resume : Style → State → State)
    (p : Settled * State) : State :=
  match p with
  | (Resolved style, st) => resume style st
  | (Pending r, st) => park r k st
  | (Rejected, st) => st
  end.

(** ** Feature access *)

Definition feature_setStyle (f : nat) (style : Style) (st : State) : State :=
  set_features (alter (setStyle style) f (features st)) st.

Definition addFeature (f : Feature) (st : State) : State :=
  set_features (features st ++ [f]) st.

(** The hit test of the map: it only ever reports a feature of the map. *)
Definition forEachFeatureAtPixel (hit : option nat) (st : State) : option nat :=
  f ← hit; _ ← features st !! f; Some f.

(** ** Startup: desks, preloading, profile markers *)

(** The loop of [initializeFeatures] that creates the profile markers, one
    await per marker. *)
Fixpoint add_profile_features (locations : list Location) (st : State) : State :=
  match locations with
  | [] => st
  | location :: rest =>
      await (KInitStyle location rest)
        (λ style st,
           add_profile_features rest
             (addFeature {| geometry := Point (coords location);
                            properties := ProfileFeature (profile location);
                            fstyle := style |} st))
        (createProfileStyle (profile location) DEFAULT_MARKER_SIZE st)
  end.

(** [await Promise.all(preloadPromises)] goes on once no promise is left. *)
Definition preload_settled (st : State) : State :=
  match preloading st with
  | Some O => add_profile_features DEFAULT_LOCATIONS (set_preloading None st)
  | _ => st
  end.

Definition preload_done (st : State) : State :=
  match preloading st with
  | Some (S n) => preload_settled (set_preloading (Some n) st)
  | _ => st
  end.

Definition preloadJobs : list (string * Z) :=
  flat_map (λ location,
      [ (profile location, DEFAULT_MARKER_SIZE);
        (profile location, HOVER_MARKER_SIZE);
        (profile location, CLICK_MARKER_SIZE) ]) DEFAULT_LOCATIONS.

(** The calls that build [preloadPromises]; the flag tells whether one of the
    promises was born rejected. *)
Fixpoint preload (jobs : list (string * Z)) (st : State) : bool * State :=
  match jobs with
  | [] => (false, st)
  | (profilePath, size) :: jobs =>
      match createProfileStyle profilePath size st with
      | (Resolved _, st) => preload jobs st
      | (Pending r, st) =>
          let st := park r KPreload st in
          preload jobs (set_preloading (S <$> preloading st) st)
      | (Rejected, st) => let '(_, st) := preload jobs st in (true, st)
      end
  end.

Definition initializeFeatures (st : State) : State :=
  let '(rejected, st) := preload preloadJobs (set_preloading (Some O) st) in
  if rejected then set_preloading None st else preload_settled st.

(** The module and component state when the map effect starts: an empty
    cache and an empty map.  The two desk styles are style objects 0 and 1. *)
Definition empty_map (context2d : bool) : State :=
  {| canvas2d := context2d;
     styleCache := ∅;
     nextStyle := 2;
     features := [];
     hoveredFeature := None;
     cursor := "";
     requests := ∅;
     nextRequest := O;
     preloading := None;
     timers := ∅;
     nextTimer := O;
     isOpen := false;
     isDeskModalOpen := false;
     selectedLocation := None;
     selectedDesk := None;
     mapHeight := "600px";
     console := [] |}.

(** [DESK_LOCATIONS.forEach]: the desks go onto their layer. *)
Definition initial (context2d : bool) : State :=
  foldl (λ st desk, addFeature (createDeskFeature desk) st)
    (empty_map context2d) DESK_LOCATIONS.

(** The state when the effect returns: the preload requests are out. *)
Definition mounted (context2d : bool) : State :=
  initializeFeatures (initial context2d).

(** ** The pointer-move handler *)

Definition hover_apply (feature : nat) (style : Style) (st : State) : State :=
  set_hoveredFeature (Some feature) (feature_setStyle feature style st).

(** Second [if] of the handler. *)
Definition hover_enter (feature : option nat) (st : State) : State :=
  match feature with
  | Some f =>
      if decide (hoveredFeature st = Some f) then st
      else
        match properties <$> features st !! f with
        | Some (ProfileFeature profilePath) =>
            await (KHoverApply f) (hover_apply f)
              (createProfileStyle profilePath HOVER_MARKER_SIZE st)
        | Some (DeskFeature _) => hover_apply f deskHoverStyle st
        | None => st
        end
  | None => st
  end.

(** The first [if] after its await: [hoveredFeature] is read again, and
    [setStyle] on [null] throws. *)
Definition hover_revert (feature : option nat) (style : Style) (st : State) : State :=
  match hoveredFeature st with
  | Some h => hover_enter feature (set_hoveredFeature None (feature_setStyle h style st))
  | None => st
  end.

Definition pointermove (hit : option nat) (st : State) : State :=
  let feature := forEachFeatureAtPixel hit st in
  let st := set_cursor (match feature with Some _ => "pointer" | None => "" end) st in
  match hoveredFeature st with
  | Some h =>
      if decide (Some h = feature) then hover_enter feature st
      else
        match properties <$> features st !! h with
        | Some (ProfileFeature profilePath) =>
            await (KHoverRevert feature) (hover_revert feature)
              (createProfileStyle profilePath DEFAULT_MARKER_SIZE st)
        | Some (DeskFeature _) => hover_revert feature deskStyle st
        | None => st
        end
  | None => hover_enter feature st
  end.

(** ** The click handler and its timer

    The handler first writes the click coordinates with [console.log]; that
    line is no part of the state, whose [console] holds the [console.error]
    lines only. *)

Definition setTimeout (t : Timer) (st : State) : State :=
  set_nextTimer (S (nextTimer st)) (set_timers (<[nextTimer st := t]> (timers st)) st).

Definition click_enlarge (clickedFeature : nat) (largeStyle : Style) (st : State)
    : State :=
  setTimeout {| delay := CLICK_ANIMATION_DURATION; target := clickedFeature |}
    (feature_setStyle clickedFeature largeStyle st).

Definition click (hit : option nat) (st : State) : State :=
  match forEachFeatureAtPixel hit st with
  | Some c =>
      match features st !! c with
      | Some clickedFeature =>
          match properties clickedFeature, geometry clickedFeature with
          | ProfileFeature profilePath, Point coords =>
              let st :=
                setSelectedLocation
                  (Some {| sl_coords := coords; sl_profile := profilePath |}) st in
              let st := setIsOpen true st in
              await (KClickLarge c) (click_enlarge c)
                (createProfileStyle profilePath CLICK_MARKER_SIZE st)
          | DeskFeature id, Circle center _ =>
              let st :=
                setSelectedDesk (Some {| sd_id := id; sd_coords := center |}) st in
              setIsDeskModalOpen true st
          | _, _ => st
          end
      | None => st
      end
  | None => st
  end.

(** The callback given to [setTimeout]. *)
Definition click_timeout (t : nat) (st : State) : State :=
  match timers st !! t with
  | Some timer =>
      let st := set_timers (delete t (timers st)) st in
      match properties <$> features st !! target timer with
      | Some (ProfileFeature profilePath) =>
          await (KClickRevert (target timer)) (feature_setStyle (target timer))
            (createProfileStyle profilePath DEFAULT_MARKER_SIZE st)
      | _ => st
      end
  | None => st
  end.

(** ** Events *)

Inductive Event :=
  | PointerMove (hit : option nat)
  | Click (hit : option nat)
  | ImageLoaded (request : nat)
  | ImageFailed (request : nat)
  | TimerFired (timer : nat).

Definition resume (k : Cont) : Style → State → State :=
  match k with
  | KPreload => λ _, preload_done
  | KInitStyle location rest =>
      λ style st,
        add_profile_features rest
          (addFeature {| geometry := Point (coords location);
                         properties := ProfileFeature (profile location);
                         fstyle := style |} st)
  | KHoverRevert feature => hover_revert feature
  | KHoverApply feature => hover_apply feature
  | KClickLarge clickedFeature => click_enlarge clickedFeature
  | KClickRevert clickedFeature => feature_setStyle clickedFeature
  end.

(** An image event: its handler settles the promise, which resumes whoever
    awaits it. *)
Definition settle (request : nat) (handler : Render → State → Style * State)
    (st : State) : State :=
  match requests st !! request with
  | Some q =>
      let st := set_requests (delete request (requests st)) st in
      let '(style, st) := handler (render q) st in
      resume (awaiting q) style st
  | None => st
  end.

Definition step (st : State) (e : Event) : State :=
  match e with
  | PointerMove hit => pointermove hit st
  | Click hit => click hit st
  | ImageLoaded request => settle request onload st
  | ImageFailed request => settle request onerror st
  | TimerFired timer => click_timeout timer st
  end.

Definition run (st : State) (events : list Event) : State :=
  foldl step st events.

(** * Predicates and runs used in the statements *)

(** ** Frame conditions

    A property of the state is [framed] when it survives every update that
    the handlers make apart from settling an image request: a new style
    object, a style put on a feature, a feature added, the hovered feature or
    the cursor changed, a handler parked on an image request, a timer set or
    cleared, and the React state setters. *)

Record framed (P : State → Prop) : Prop := {
  framed_nextStyle n st : P st → P (set_nextStyle n st);
  framed_setStyle f style st : P st → P (feature_setStyle f style st);
  framed_addFeature marker st : P st → P (addFeature marker st);
  framed_hoveredFeature h st : P st → P (set_hoveredFeature h st);
  framed_cursor c st : P st → P (set_cursor c st);
  framed_park r k st : P st → P (park r k st);
  framed_setTimeout t st : P st → P (setTimeout t st);
  framed_clearTimeout t st : P st → P (set_timers (delete t (timers st)) st);
  framed_preloading n st : P st → P (set_preloading n st);
  framed_selectedLocation v st : P st → P (setSelectedLocation v st);
  framed_isOpen v st : P st → P (setIsOpen v st);
  framed_selectedDesk v st : P st → P (setSelectedDesk v st);
  framed_isDeskModalOpen v st : P st → P (setIsDeskModalOpen v st)
}.

(** Only [onload] writes to the style cache, and nothing changes whether a 2d
    context is available. *)

Definition same_cache (st st' : State) : Prop :=
  styleCache st' = styleCache st ∧ canvas2d st' = canvas2d st.

(** ** Cache entries are never removed *)

Definition cache_kept (st st' : State) : Prop :=
  ∀ profilePath size,
    is_Some (cache_get (styleCache st) profilePath size) →
    is_Some (cache_get (styleCache st') profilePath size).

(** ** Markers stay on the map

    No handler removes a feature or changes its geometry or properties; only
    styles change and profile markers get appended. *)

Definition markers_kept (st st' : State) : Prop :=
  ∀ f marker,
    features st !! f = Some marker →
    ∃ marker',
      features st' !! f = Some marker'
      ∧ properties marker' = properties marker
      ∧ geometry marker' = geometry marker.

(** ** Image requests in flight *)

(** Request [request] is in flight with content [q]; request numbers are
    handed out in increasing order. *)
Definition pending (request : nat) (q : Request) (st : State) : Prop :=
  requests st !! request = Some q ∧ (request < nextRequest st)%nat.

Definition image_event_of (request : nat) (e : Event) : Prop :=
  e = ImageLoaded request ∨ e = ImageFailed request.

(** ** A state without image requests *)

(** No 2d context, no request in flight; [n], [cache] and [log] are the next
    request number, the style cache and the [console.error] lines. *)
Definition quiet (n : nat) (cache : gmap string (gmap Z Style))
    (log : list string) (st : State) : Prop :=
  canvas2d st = false ∧ requests st = ∅ ∧ nextRequest st = n
  ∧ styleCache st = cache ∧ console st = log.

(** ** Timers *)

(** Timer [t] is set with content [timer]; timer numbers are handed out in
    increasing order. *)
Definition timer_set (t : nat) (timer : Timer) (st : State) : Prop :=
  timers st !! t = Some timer ∧ (t < nextTimer st)%nat.

(** ** Profile markers *)

(** The feature that the marker loop builds for a location. *)
Definition profile_marker (location : Location) (style : Style) : Feature :=
  {| geometry := Point (coords location);
     properties := ProfileFeature (profile location);
     fstyle := style |}.

(** The same with the default-size style taken from the cache. *)
Definition cached_marker (st : State) (location : Location) : option Feature :=
  profile_marker location
    <$> cache_get (styleCache st) (profile location) DEFAULT_MARKER_SIZE.

(** ** Hovering *)

(** The style [createProfileStyle] answers with for a marker at the default
    and at the hover size when it is cached; the two shared fills for a
    desk. *)
Definition default_style (st : State) (marker : Feature) : option Style :=
  match properties marker with
  | ProfileFeature profilePath =>
      cache_get (styleCache st) profilePath DEFAULT_MARKER_SIZE
  | DeskFeature _ => Some deskStyle
  end.






(** ** Runs of the startup *)

(** Three runs of the startup.  In [preloaded] all fifteen preload images
    load.  In [profile1_retried] the six preload requests for profile1.jpeg
    fail and the request made by the marker loop (request 15) loads, and the
    same in [profile2_retried] for the three requests for profile2.jpeg.  In
    all three the twelve markers are on the map and nothing is pending. *)

Definition preloaded : State :=
  run (mounted true) (ImageLoaded <$> seq 0 15).

Definition profile1_retried : State :=
  run (mounted true)
    ((ImageFailed <$> seq 0 3) ++ (ImageLoaded <$> seq 3 9)
     ++ (ImageFailed <$> seq 12 3) ++ [ImageLoaded 15%nat]).

Definition profile2_retried : State :=
  run (mounted true)
    ((ImageLoaded <$> seq 0 3) ++ (ImageFailed <$> seq 3 3)
     ++ (ImageLoaded <$> seq 6 10)).



(** ** Desks that share an identity *)

(** The [id] of a desk is a property of its feature, read back from the
    clicked feature into the selection.  [rename_ids rename st] is [st] with
    every desk identity, on the map and in the selection, replaced by its
    image under [rename]. *)
Definition rename_properties (rename : string → string) (p : Properties)
    : Properties :=
  match p with
  | ProfileFeature profilePath => ProfileFeature profilePath
  | DeskFeature id => DeskFeature (rename id)
  end.

Definition rename_feature (rename : string → string) (f : Feature) : Feature :=
  {| geometry := geometry f;
     properties := rename_properties rename (properties f);
     fstyle := fstyle f |}.

Definition rename_desk (rename : string → string) (desk : SelectedDesk)
    : SelectedDesk :=
  {| sd_id := rename (sd_id desk); sd_coords := sd_coords desk |}.

Definition rename_ids (rename : string → string) (st : State) : State :=
  setSelectedDesk (rename_desk rename <$> selectedDesk st)
    (set_features (rename_feature rename <$> features st) st).

(** * Properties *)


(** ** Layout *)

(** C9.  Whenever the window is narrower than 1024 pixels, the layout
    recomputation sets the map height to the fixed "600px", whatever height
    the viewport height would give (viewport height minus 120, clamped between
    400 and 1200). *)
Theorem calculateMapHeight_narrow (w : Window) (st : State) :
  innerWidth w < 1024 →
  calculateMapHeight (Some w) st = setMapHeight "600px" st
  ∧ mapHeight (calculateMapHeight (Some w) st) = "600px".
Proof.
  intros Hnarrow. unfold calculateMapHeight.
  destruct (Z.ltb_spec (innerWidth w) 1024) as [_|Hwide]; [|lia].
  split; reflexivity.
Qed.

Lemma calculateMapHeight_narrow_tall_window :
  innerWidth {| innerHeight := 900; innerWidth := 1000 |} < 1024
  ∧ Z.min (Z.max (900 - HEADER_FOOTER_SPACE) MIN_MAP_HEIGHT) MAX_MAP_HEIGHT = 780
  ∧ mapHeight
      (calculateMapHeight (Some {| innerHeight := 900; innerWidth := 1000 |})
         (initial true)) = "600px".
Proof.
  split; [reflexivity|]. split; [reflexivity|].
  apply (calculateMapHeight_narrow
           {| innerHeight := 900; innerWidth := 1000 |} (initial true)).
  reflexivity.
Defined.

(** On a wide window the clamped height is used instead. *)
Lemma calculateMapHeight_wide (w : Window) (st : State) :
  1024 ≤ innerWidth w →
  calculateMapHeight (Some w) st =
    setMapHeight
      (pretty (Z.min (Z.max (innerHeight w - 120) 400) 1200) +:+ "px") st.
Proof.
  intros Hwide. unfold calculateMapHeight.
  destruct (Z.ltb_spec (innerWidth w) 1024); [lia|]. reflexivity.
Qed.

(** ** Desk features *)

Lemma initial_features context2d :
  features (initial context2d) = createDeskFeature <$> DESK_LOCATIONS.
Proof. reflexivity. Qed.

(** C10.  The feature built for a desk entry is a circle of radius 25 around
    the entry's coordinates; the entry's [size] is not read, so an entry with
    another size gives the same feature.  In particular every desk feature
    registered at startup is a circle of radius 25. *)
Theorem createDeskFeature_fixed_radius (desk : DeskLocation) (context2d : bool) :
  DESK_RADIUS = 25
  ∧ geometry (createDeskFeature desk) = Circle (dcoords desk) DESK_RADIUS
  ∧ (∀ size' : Z * Z,
       createDeskFeature
         {| dcoords := dcoords desk; dsize := size'; did := did desk |}
       = createDeskFeature desk)
  ∧ Forall (λ f, ∃ center, geometry f = Circle center 25)
      (features (initial context2d)).
Proof.
  split; [reflexivity|]. split; [|split].
  - unfold createDeskFeature. destruct (dcoords desk); reflexivity.
  - intros size'. reflexivity.
  - rewrite initial_features. apply Forall_forall. intros f Hf.
    apply list_elem_of_fmap in Hf as (d & -> & _).
    exists (dcoords d). unfold createDeskFeature. destruct (dcoords d); reflexivity.
Qed.

(** ** The style cache *)

Section Cache.
Implicit Types (cache : gmap string (gmap Z Style)) (style : Style).

Lemma cache_put_unfold cache profilePath size style :
  cache_put cache profilePath size style =
    <[profilePath := <[size := style]> (default ∅ (cache !! profilePath))]> cache.
Proof.
  unfold cache_put. destruct (cache !! profilePath) as [bySize|] eqn:Hc.
  - by rewrite Hc.
  - rewrite lookup_insert_eq. simpl. by rewrite insert_insert_eq.
Qed.

Lemma cache_get_put_eq cache profilePath size style :
  cache_get (cache_put cache profilePath size style) profilePath size = Some style.
Proof.
  rewrite cache_put_unfold. unfold cache_get.
  rewrite lookup_insert_eq. simpl. apply lookup_insert_eq.
Qed.

Lemma cache_get_put_ne cache profilePath size style profilePath' size' :
  (profilePath', size') ≠ (profilePath, size) →
  cache_get (cache_put cache profilePath size style) profilePath' size'
  = cache_get cache profilePath' size'.
Proof.
  intros Hne. rewrite cache_put_unfold. unfold cache_get.
  destruct (decide (profilePath = profilePath')) as [->|Hp].
  - rewrite lookup_insert_eq. simpl.
    rewrite lookup_insert_ne by congruence.
    destruct (cache !! profilePath'); [done|]. simpl. apply lookup_empty.
  - by rewrite lookup_insert_ne.
Qed.

Lemma cache_get_put_is_Some cache profilePath size style profilePath' size' :
  is_Some (cache_get cache profilePath' size') →
  is_Some (cache_get (cache_put cache profilePath size style) profilePath' size').
Proof.
  intros Hsome.
  destruct (decide ((profilePath', size') = (profilePath, size))) as [Heq|Hne].
  - injection Heq as -> ->. rewrite cache_get_put_eq. by eexists.
  - by rewrite cache_get_put_ne.
Qed.
End Cache.

(** ** The compositor *)

Lemma draw_backdrop_nonneg (size : Z) :
  0 ≤ size →
  draw_backdrop size =
    Some {| cwidth := size * 2 + 3 * 2;
            cheight := size * 2 + 3 * 2;
            cops := [ BeginPath;
                      Arc ((size * 2 + 3 * 2) / 2) ((size * 2 + 3 * 2) / 2)
                        (size + 3) Zero TwoPi;
                      FillStyle "#e5e7eb"; Fill;
                      BeginPath;
                      Arc ((size * 2 + 3 * 2) / 2) ((size * 2 + 3 * 2) / 2)
                        size Zero TwoPi;
                      Clip ] |}.
Proof.
  intros Hsize. unfold draw_backdrop, arc.
  destruct (Z.ltb_spec (size + 3) 0); [lia|].
  destruct (Z.ltb_spec size 0); [lia|]. reflexivity.
Qed.

Lemma draw_backdrop_negative (size : Z) : size < 0 → draw_backdrop size = None.
Proof.
  intros Hsize. unfold draw_backdrop, arc.
  destruct (Z.ltb_spec (size + 3) 0); [done|].
  destruct (Z.ltb_spec size 0); [done|lia].
Qed.

Lemma createProfileStyle_hit profilePath size st style :
  cache_get (styleCache st) profilePath size = Some style →
  createProfileStyle profilePath size st = (Resolved style, st).
Proof. intros Hhit. unfold createProfileStyle. by rewrite Hhit. Qed.

Lemma createProfileStyle_no_context profilePath size st :
  cache_get (styleCache st) profilePath size = None →
  canvas2d st = false →
  createProfileStyle profilePath size st =
    (Resolved {| sid := nextStyle st; fill := None; image := None |},
     set_nextStyle (S (nextStyle st)) st).
Proof. intros Hmiss Hctx. unfold createProfileStyle. by rewrite Hmiss, Hctx. Qed.

Lemma createProfileStyle_miss profilePath size st :
  cache_get (styleCache st) profilePath size = None →
  canvas2d st = true →
  createProfileStyle profilePath size st =
    match draw_backdrop size with
    | Some canvas =>
        (Pending {| rpath := profilePath; rsize := size; rcanvas := canvas |}, st)
    | None => (Rejected, st)
    end.
Proof. intros Hmiss Hctx. unfold createProfileStyle. by rewrite Hmiss, Hctx. Qed.

(** C7.  For a positive size, when a 2d context is available and the style is
    not cached, the compositor works on a square canvas of side
    [2 * (size + 3)]: it fills a circle of radius [size + 3] around the centre
    of the canvas, clips to a circle of radius [size] around the same centre,
    and, once the image has loaded, draws it into the square of side
    [2 * size] inside the border and wraps the canvas in an icon anchored at
    the fraction (1/2, 1/2). *)
Theorem createProfileStyle_composites (profilePath : string) (size : Z) (st : State) :
  0 < size →
  canvas2d st = true →
  cache_get (styleCache st) profilePath size = None →
  ∃ canvas side,
    createProfileStyle profilePath size st =
      (Pending {| rpath := profilePath; rsize := size; rcanvas := canvas |}, st)
    ∧ side = 2 * (size + 3)
    ∧ cwidth canvas = side ∧ cheight canvas = side
    ∧ side / 2 = size + 3
    ∧ cops canvas =
        [ BeginPath; Arc (side / 2) (side / 2) (size + 3) Zero TwoPi;
          FillStyle "#e5e7eb"; Fill;
          BeginPath; Arc (side / 2) (side / 2) size Zero TwoPi; Clip ]
    ∧ ∀ st' : State,
        image (onload {| rpath := profilePath; rsize := size; rcanvas := canvas |} st').1
        = Some {| img := {| cwidth := side; cheight := side;
                            cops := cops canvas
                                    ++ [DrawImage profilePath 3 3 (2 * size) (2 * size)] |};
                  icon_size := (side, side);
                  anchor := (Qmake 1 2, Qmake 1 2);
                  anchorXUnits := "fraction";
                  anchorYUnits := "fraction" |}.
Proof.
  intros Hsize Hctx Hmiss.
  rewrite (createProfileStyle_miss _ _ _ Hmiss Hctx).
  rewrite draw_backdrop_nonneg by lia.
  replace (size * 2 + 3 * 2) with (2 * (size + 3)) by lia.
  eexists _, (2 * (size + 3)).
  split; [reflexivity|]. split; [reflexivity|].
  split; [reflexivity|]. split; [reflexivity|].
  split; [by rewrite Z.mul_comm, Z.div_mul|].
  split; [reflexivity|].
  intros st'. unfold onload, new_Style, draw. simpl.
  replace (size * 2 + 3 * 2) with (2 * (size + 3)) by lia.
  replace (size * 2) with (2 * size) by lia. reflexivity.
Qed.

Lemma createProfileStyle_composites_default_marker :
  0 < DEFAULT_MARKER_SIZE
  ∧ canvas2d (initial true) = true
  ∧ cache_get (styleCache (initial true)) "/profiles/profile1.jpeg"
      DEFAULT_MARKER_SIZE = None
  ∧ ∃ canvas side,
      createProfileStyle "/profiles/profile1.jpeg" DEFAULT_MARKER_SIZE (initial true) =
        (Pending {| rpath := "/profiles/profile1.jpeg"; rsize := DEFAULT_MARKER_SIZE;
                    rcanvas := canvas |}, initial true)
      ∧ side = 66 ∧ cwidth canvas = side ∧ cheight canvas = side.
Proof.
  split; [reflexivity|]. split; [reflexivity|]. split; [reflexivity|].
  destruct (createProfileStyle_composites "/profiles/profile1.jpeg"
              DEFAULT_MARKER_SIZE (initial true))
    as (canvas & side & Hcall & Hside & Hw & Hh & _);
    [reflexivity|reflexivity|reflexivity|].
  exists canvas, side. split; [exact Hcall|]. split; [exact Hside|].
  split; [exact Hw|exact Hh].
Defined.

(** ** Frame conditions *)

Lemma createProfileStyle_state profilePath size st :
  (createProfileStyle profilePath size st).2 = st
  ∨ (createProfileStyle profilePath size st).2 = set_nextStyle (S (nextStyle st)) st.
Proof.
  unfold createProfileStyle, new_Style.
  destruct (cache_get _ _ _); [by left|].
  destruct (negb _); [by right|]. destruct (draw_backdrop _); by left.
Qed.

Section Frame.
Context (P : State → Prop) (HP : framed P).

Lemma createProfileStyle_frame profilePath size st :
  P st → P (createProfileStyle profilePath size st).2.
Proof using HP.
  intros Hst.
  destruct (createProfileStyle_state profilePath size st) as [->| ->]; [done|].
  by apply (framed_nextStyle P HP).
Qed.

Lemma await_frame k resume profilePath size st :
  P st →
  (∀ style st, P st → P (resume style st)) →
  P (await k resume (createProfileStyle profilePath size st)).
Proof using HP.
  intros Hst Hresume.
  pose proof (createProfileStyle_frame profilePath size st Hst) as Hst2.
  destruct (createProfileStyle profilePath size st) as [[style|r|] st2];
    cbn [await snd] in *.
  - by apply Hresume.
  - by apply (framed_park P HP).
  - done.
Qed.

Lemma hover_apply_frame f style st : P st → P (hover_apply f style st).
Proof using HP.
  intros Hst. unfold hover_apply.
  by apply (framed_hoveredFeature P HP), (framed_setStyle P HP).
Qed.

Lemma hover_enter_frame feature st : P st → P (hover_enter feature st).
Proof using HP.
  intros Hst. unfold hover_enter. destruct feature as [f|]; [|done].
  destruct (decide _); [done|].
  destruct (properties <$> features st !! f) as [[profilePath|id]|]; [| |done].
  - apply await_frame; [done|]. intros. by apply hover_apply_frame.
  - by apply hover_apply_frame.
Qed.

Lemma hover_revert_frame feature style st :
  P st → P (hover_revert feature style st).
Proof using HP.
  intros Hst. unfold hover_revert. destruct (hoveredFeature st) as [h|]; [|done].
  by apply hover_enter_frame, (framed_hoveredFeature P HP), (framed_setStyle P HP).
Qed.

Lemma pointermove_frame hit st : P st → P (pointermove hit st).
Proof using HP.
  intros Hst. unfold pointermove.
  set (feature := forEachFeatureAtPixel hit st).
  assert (P (set_cursor match feature with Some _ => "pointer" | None => "" end st))
    as Hst1 by by apply (framed_cursor P HP).
  revert Hst1. generalize (set_cursor match feature with
                                       | Some _ => "pointer"
                                       | None => ""
                                       end st).
  clearbody feature. intros st1 Hst1.
  destruct (hoveredFeature st1) as [h|]; [|by apply hover_enter_frame].
  destruct (decide _); [by apply hover_enter_frame|].
  destruct (properties <$> features st1 !! h) as [[profilePath|id]|]; [| |done].
  - apply await_frame; [done|]. intros. by apply hover_revert_frame.
  - by apply hover_revert_frame.
Qed.

Lemma click_enlarge_frame c style st : P st → P (click_enlarge c style st).
Proof using HP.
  intros Hst. unfold click_enlarge.
  by apply (framed_setTimeout P HP), (framed_setStyle P HP).
Qed.

Lemma click_frame hit st : P st → P (click hit st).
Proof using HP.
  intros Hst. unfold click.
  destruct (forEachFeatureAtPixel hit st) as [c|]; [|done].
  destruct (features st !! c) as [clickedFeature|]; [|done].
  destruct (properties clickedFeature), (geometry clickedFeature); try done.
  - apply await_frame; [|intros; by apply click_enlarge_frame].
    by apply (framed_isOpen P HP), (framed_selectedLocation P HP).
  - by apply (framed_isDeskModalOpen P HP), (framed_selectedDesk P HP).
Qed.

Lemma click_timeout_frame t st : P st → P (click_timeout t st).
Proof using HP.
  intros Hst. unfold click_timeout. destruct (timers st !! t) as [timer|]; [|done].
  pose proof (framed_clearTimeout P HP t st Hst) as Hst1.
  revert Hst1. generalize (set_timers (delete t (timers st)) st). intros st1 Hst1.
  destruct (properties <$> features st1 !! target timer) as [[profilePath|id]|];
    [|done..].
  apply await_frame; [done|]. intros. by apply (framed_setStyle P HP).
Qed.

Lemma add_profile_features_frame locations st :
  P st → P (add_profile_features locations st).
Proof using HP.
  revert st. induction locations as [|location rest IH]; intros st Hst; [done|].
  cbn [add_profile_features]. apply await_frame; [done|].
  intros style st' Hst'. by apply IH, (framed_addFeature P HP).
Qed.

Lemma preload_done_frame st : P st → P (preload_done st).
Proof using HP.
  intros Hst. unfold preload_done.
  destruct (preloading st) as [[|n]|]; try done.
  unfold preload_settled.
  change (preloading (set_preloading (Some n) st)) with (Some n).
  destruct n; [|by apply (framed_preloading P HP)].
  by apply add_profile_features_frame, (framed_preloading P HP),
    (framed_preloading P HP).
Qed.

Lemma resume_frame k style st : P st → P (resume k style st).
Proof using HP.
  intros Hst. destruct k; cbn [resume].
  - by apply preload_done_frame.
  - by apply add_profile_features_frame, (framed_addFeature P HP).
  - by apply hover_revert_frame.
  - by apply hover_apply_frame.
  - by apply click_enlarge_frame.
  - by apply (framed_setStyle P HP).
Qed.
End Frame.

(** *** What a handler can change

    The frame reasoning once more, with one hypothesis per kind of update, so
    that a property only has to survive the updates of the handler at hand.
    A handler is parked only when a 2d context exists and the style it asks
    for is not in the cache. *)

Lemma createProfileStyle_pending profilePath size st r st' :
  createProfileStyle profilePath size st = (Pending r, st') →
  st' = st ∧ canvas2d st = true
  ∧ cache_get (styleCache st) profilePath size = None
  ∧ rpath r = profilePath ∧ rsize r = size.
Proof.
  unfold createProfileStyle, new_Style.
  destruct (cache_get _ _ _); [discriminate|].
  destruct (canvas2d st); cbn [negb]; [|discriminate].
  destruct (draw_backdrop size); [|discriminate].
  intros [= <- <-]. done.
Qed.

Section Preserve.
Variable P : State → Prop.
Hypothesis P_new_Style : ∀ st, P st → P (set_nextStyle (S (nextStyle st)) st).
Hypothesis P_park :
  ∀ r k st,
    canvas2d st = true →
    cache_get (styleCache st) (rpath r) (rsize r) = None →
    P st → P (park r k st).
Hypothesis P_setStyle : ∀ f style st, P st → P (feature_setStyle f style st).
Hypothesis P_addFeature : ∀ marker st, P st → P (addFeature marker st).
Hypothesis P_hoveredFeature : ∀ h st, P st → P (set_hoveredFeature h st).
Hypothesis P_setTimeout : ∀ t st, P st → P (setTimeout t st).
Hypothesis P_preloading : ∀ n st, P st → P (set_preloading n st).
Hypothesis P_selectedLocation : ∀ v st, P st → P (setSelectedLocation v st).
Hypothesis P_isOpen : ∀ v st, P st → P (setIsOpen v st).
Hypothesis P_selectedDesk : ∀ v st, P st → P (setSelectedDesk v st).
Hypothesis P_isDeskModalOpen : ∀ v st, P st → P (setIsDeskModalOpen v st).

Lemma await_keeps k resume profilePath size st :
  P st →
  (∀ style st, P st → P (resume style st)) →
  P (await k resume (createProfileStyle profilePath size st)).
Proof using P_new_Style P_park.
  intros Hst Hresume.
  pose proof (createProfileStyle_state profilePath size st) as Hstate.
  destruct (createProfileStyle profilePath size st) as [[style|r|] st2] eqn:Hcall;
    cbn [await snd] in *.
  - apply Hresume. destruct Hstate as [->| ->]; [done|by apply P_new_Style].
  - apply createProfileStyle_pending in Hcall as (-> & Hctx & Hmiss & <- & <-).
    by apply P_park.
  - destruct Hstate as [->| ->]; [done|by apply P_new_Style].
Qed.

Lemma hover_apply_keeps f style st : P st → P (hover_apply f style st).
Proof using P_setStyle P_hoveredFeature.
  intros Hst. by apply P_hoveredFeature, P_setStyle.
Qed.

Lemma hover_enter_keeps feature st : P st → P (hover_enter feature st).
Proof using P_new_Style P_park P_setStyle P_hoveredFeature.
  intros Hst. unfold hover_enter. destruct feature as [f|]; [|done].
  destruct (decide _); [done|].
  destruct (properties <$> features st !! f) as [[profilePath|id]|]; [| |done].
  - apply await_keeps; [done|]. intros. by apply hover_apply_keeps.
  - by apply hover_apply_keeps.
Qed.

Lemma hover_revert_keeps feature style st :
  P st → P (hover_revert feature style st).
Proof using P_new_Style P_park P_setStyle P_hoveredFeature.
  intros Hst. unfold hover_revert. destruct (hoveredFeature st) as [h|]; [|done].
  by apply hover_enter_keeps, P_hoveredFeature, P_setStyle.
Qed.

Lemma pointermove_keeps hit st :
  P (set_cursor
       match forEachFeatureAtPixel hit st with Some _ => "pointer" | None => "" end
       st) →
  P (pointermove hit st).
Proof using P_new_Style P_park P_setStyle P_hoveredFeature.
  unfold pointermove.
  generalize (set_cursor
                match forEachFeatureAtPixel hit st with
                | Some _ => "pointer"
                | None => ""
                end st).
  generalize (forEachFeatureAtPixel hit st). intros feature st1 Hst1.
  destruct (hoveredFeature st1) as [h|]; [|by apply hover_enter_keeps].
  destruct (decide _); [by apply hover_enter_keeps|].
  destruct (properties <$> features st1 !! h) as [[profilePath|id]|]; [| |done].
  - apply await_keeps; [done|]. intros. by apply hover_revert_keeps.
  - by apply hover_revert_keeps.
Qed.

Lemma click_enlarge_keeps c style st : P st → P (click_enlarge c style st).
Proof using P_setStyle P_setTimeout.
  intros Hst. by apply P_setTimeout, P_setStyle.
Qed.

Lemma click_keeps hit st : P st → P (click hit st).
Proof using P_new_Style P_park P_setStyle P_setTimeout P_selectedLocation
  P_isOpen P_selectedDesk P_isDeskModalOpen.
  intros Hst. unfold click.
  destruct (forEachFeatureAtPixel hit st) as [c|]; [|done].
  destruct (features st !! c) as [clickedFeature|]; [|done].
  destruct (properties clickedFeature), (geometry clickedFeature); try done.
  - apply await_keeps; [|intros; by apply click_enlarge_keeps].
    by apply P_isOpen, P_selectedLocation.
  - by apply P_isDeskModalOpen, P_selectedDesk.
Qed.

Lemma click_timeout_keeps t st :
  P st → P (set_timers (delete t (timers st)) st) → P (click_timeout t st).
Proof using P_new_Style P_park P_setStyle.
  intros Hst. unfold click_timeout. destruct (timers st !! t) as [timer|]; [|done].
  generalize (set_timers (delete t (timers st)) st). intros st1 Hst1.
  destruct (properties <$> features st1 !! target timer) as [[profilePath|id]|];
    [|done..].
  apply await_keeps; [done|]. intros. by apply P_setStyle.
Qed.

Lemma add_profile_features_keeps locations st :
  P st → P (add_profile_features locations st).
Proof using P_new_Style P_park P_addFeature.
  revert st. induction locations as [|location rest IH]; intros st Hst; [done|].
  cbn [add_profile_features]. apply await_keeps; [done|].
  intros style st' Hst'. by apply IH, P_addFeature.
Qed.

Lemma preload_done_keeps st : P st → P (preload_done st).
Proof using P_new_Style P_park P_addFeature P_preloading.
  intros Hst. unfold preload_done.
  destruct (preloading st) as [[|n]|]; try done.
  unfold preload_settled.
  change (preloading (set_preloading (Some n) st)) with (Some n).
  destruct n; [|by apply P_preloading].
  by apply add_profile_features_keeps, P_preloading, P_preloading.
Qed.

Lemma resume_keeps k style st : P st → P (resume k style st).
Proof using P_new_Style P_park P_setStyle P_addFeature P_hoveredFeature
  P_setTimeout P_preloading.
  intros Hst. destruct k; cbn [resume].
  - by apply preload_done_keeps.
  - by apply add_profile_features_keeps, P_addFeature.
  - by apply hover_revert_keeps.
  - by apply hover_apply_keeps.
  - by apply click_enlarge_keeps.
  - by apply P_setStyle.
Qed.

Lemma settle_keeps request handler st :
  P st →
  (∀ q, requests st !! request = Some q →
        P (handler (render q) (set_requests (delete request (requests st)) st)).2) →
  P (settle request handler st).
Proof using P_new_Style P_park P_setStyle P_addFeature P_hoveredFeature
  P_setTimeout P_preloading.
  intros Hst Hhandler. unfold settle.
  destruct (requests st !! request) as [q|]; [|done].
  specialize (Hhandler q eq_refl).
  destruct (handler (render q) _) as [style st2]. by apply resume_keeps.
Qed.
End Preserve.

Ltac kept := intros; first [assumption | reflexivity].

(** *** The cache outside of image events *)

Lemma same_cache_refl st : same_cache st st.
Proof. by split. Qed.

Lemma same_cache_framed st0 : framed (same_cache st0).
Proof. split; intros; assumption. Qed.

Lemma pointermove_same_cache hit st : same_cache st (pointermove hit st).
Proof. apply pointermove_frame; [apply same_cache_framed|apply same_cache_refl]. Qed.

Lemma click_same_cache hit st : same_cache st (click hit st).
Proof. apply click_frame; [apply same_cache_framed|apply same_cache_refl]. Qed.

Lemma click_timeout_same_cache t st : same_cache st (click_timeout t st).
Proof.
  apply click_timeout_frame; [apply same_cache_framed|apply same_cache_refl].
Qed.

Lemma resume_same_cache st0 k style st :
  same_cache st0 st → same_cache st0 (resume k style st).
Proof. apply resume_frame, same_cache_framed. Qed.

Lemma same_cache_kept st st' : same_cache st st' → cache_kept st st'.
Proof. intros [Hcache _] profilePath size. by rewrite Hcache. Qed.

Lemma cache_kept_refl st : cache_kept st st.
Proof. by intros profilePath size. Qed.

Lemma cache_kept_trans st1 st2 st3 :
  cache_kept st1 st2 → cache_kept st2 st3 → cache_kept st1 st3.
Proof. intros H12 H23 profilePath size Hsome. by apply H23, H12. Qed.

Lemma onload_cache r st :
  styleCache (onload r st).2 =
    cache_put (styleCache st) (rpath r) (rsize r) (onload r st).1.
Proof. reflexivity. Qed.

Lemma onload_cache_kept r st : cache_kept st (onload r st).2.
Proof.
  intros profilePath size Hsome. rewrite onload_cache.
  by apply cache_get_put_is_Some.
Qed.

Lemma onerror_same_cache r st : same_cache st (onerror r st).2.
Proof. by split. Qed.

Lemma settle_onload st request q :
  requests st !! request = Some q →
  step st (ImageLoaded request) =
    resume (awaiting q)
      (onload (render q) (set_requests (delete request (requests st)) st)).1
      (onload (render q) (set_requests (delete request (requests st)) st)).2.
Proof. intros Hq. unfold step, settle. rewrite Hq. reflexivity. Qed.

Lemma settle_onerror st request q :
  requests st !! request = Some q →
  step st (ImageFailed request) =
    resume (awaiting q)
      (onerror (render q) (set_requests (delete request (requests st)) st)).1
      (onerror (render q) (set_requests (delete request (requests st)) st)).2.
Proof. intros Hq. unfold step, settle. rewrite Hq. reflexivity. Qed.

Lemma step_cache_kept st e : cache_kept st (step st e).
Proof.
  destruct e as [hit|hit|request|request|t].
  - apply same_cache_kept, pointermove_same_cache.
  - apply same_cache_kept, click_same_cache.
  - destruct (requests st !! request) as [q|] eqn:Hq.
    + rewrite (settle_onload _ _ _ Hq).
      eapply cache_kept_trans;
        [|apply same_cache_kept, resume_same_cache, same_cache_refl].
      intros profilePath size Hsome. by apply onload_cache_kept.
    + simpl. unfold settle. rewrite Hq. apply cache_kept_refl.
  - destruct (requests st !! request) as [q|] eqn:Hq.
    + rewrite (settle_onerror _ _ _ Hq).
      apply same_cache_kept, resume_same_cache. done.
    + simpl. unfold settle. rewrite Hq. apply cache_kept_refl.
  - apply same_cache_kept, click_timeout_same_cache.
Qed.

Lemma run_cache_kept events st : cache_kept st (run st events).
Proof.
  revert st. induction events as [|e events IH]; intros st;
    [apply cache_kept_refl|].
  simpl. eapply cache_kept_trans; [apply step_cache_kept|apply IH].
Qed.

(** *** Where image requests come from

    A handler starts an image request only for a style that is not in the
    cache, and the cache is written before the handler that awaited the image
    goes on: a request that a step leaves in flight was in flight before the
    step or renders a pair that the cache does not hold after it. *)

Lemma step_request_origin st e request q :
  requests (step st e) !! request = Some q →
  requests st !! request = Some q
  ∨ cache_get (styleCache (step st e)) (rpath (render q)) (rsize (render q)) = None.
Proof.
  set (P := λ s : State,
         ∀ request q,
           requests s !! request = Some q →
           requests st !! request = Some q
           ∨ cache_get (styleCache s) (rpath (render q)) (rsize (render q)) = None).
  assert (P st) as Hst by (intros r' q' Hq'; by left).
  assert (∀ r k s, canvas2d s = true →
                   cache_get (styleCache s) (rpath r) (rsize r) = None →
                   P s → P (park r k s)) as Hpark.
  { intros r k s _ Hmiss Hs r' q'.
    cbn [requests styleCache park set_nextRequest set_requests].
    destruct (decide (r' = nextRequest s)) as [->|Hne].
    - rewrite lookup_insert_eq. intros [= <-]. by right.
    - rewrite lookup_insert_ne by done. apply Hs. }
  assert (P (step st e)) as Hstep; [|exact (Hstep request q)].
  destruct e as [hit|hit|request'|request'|t]; cbn [step].
  - apply (pointermove_keeps P); first [exact Hpark|exact Hst|kept].
  - apply (click_keeps P); first [exact Hpark|exact Hst|kept].
  - apply (settle_keeps P); first [exact Hpark|exact Hst|kept|idtac].
    intros q0 Hq0 r' q'. cbn [requests onload new_Style snd set_styleCache
                               set_nextStyle set_requests].
    intros [_ Hq']%lookup_delete_Some. by left.
  - apply (settle_keeps P); first [exact Hpark|exact Hst|kept|idtac].
    intros q0 Hq0 r' q'. cbn [requests onerror new_Style snd set_console
                               set_nextStyle set_requests].
    intros [_ Hq']%lookup_delete_Some. by left.
  - apply (click_timeout_keeps P); first [exact Hpark|exact Hst|kept].
Qed.

(** A step changes the cache entry of a pair only when it delivers the [load]
    event of a render of that pair. *)
Lemma step_cache_get_other st e profilePath size :
  (∀ request q,
     e = ImageLoaded request →
     requests st !! request = Some q →
     ¬ (rpath (render q) = profilePath ∧ rsize (render q) = size)) →
  cache_get (styleCache (step st e)) profilePath size
  = cache_get (styleCache st) profilePath size.
Proof.
  intros Hother. destruct e as [hit|hit|request|request|t].
  - cbn [step]. by destruct (pointermove_same_cache hit st) as [-> _].
  - cbn [step]. by destruct (click_same_cache hit st) as [-> _].
  - destruct (requests st !! request) as [q|] eqn:Hq.
    + rewrite (settle_onload _ _ _ Hq).
      set (st1 := set_requests (delete request (requests st)) st).
      destruct (resume_same_cache (onload (render q) st1).2 (awaiting q)
                  (onload (render q) st1).1 (onload (render q) st1).2
                  (same_cache_refl _)) as [-> _].
      rewrite onload_cache. apply cache_get_put_ne.
      intros [= -> ->]. by apply (Hother request q).
    + cbn [step]. unfold settle. by rewrite Hq.
  - destruct (requests st !! request) as [q|] eqn:Hq.
    + rewrite (settle_onerror _ _ _ Hq).
      set (st1 := set_requests (delete request (requests st)) st).
      by destruct (resume_same_cache (onerror (render q) st1).2 (awaiting q)
                     (onerror (render q) st1).1 (onerror (render q) st1).2
                     (same_cache_refl _)) as [-> _].
    + cbn [step]. unfold settle. by rewrite Hq.
  - cbn [step]. by destruct (click_timeout_same_cache t st) as [-> _].
Qed.

(** While a pair is in the cache no render of it is started: the renders of
    the pair that are in flight after a run were in flight before it. *)
Lemma run_no_new_render st0 profilePath size events st :
  is_Some (cache_get (styleCache st) profilePath size) →
  (∀ request q,
     requests st !! request = Some q →
     rpath (render q) = profilePath → rsize (render q) = size →
     requests st0 !! request = Some q) →
  ∀ request q,
    requests (run st events) !! request = Some q →
    rpath (render q) = profilePath → rsize (render q) = size →
    requests st0 !! request = Some q.
Proof.
  revert st. induction events as [|e events IH]; intros st Hcached Hold; [done|].
  cbn [run foldl]. apply IH.
  - by apply step_cache_kept.
  - intros request q Hq Hpath Hsize.
    destruct (step_request_origin _ _ _ _ Hq) as [Hbefore|Hmiss];
      [by apply Hold|].
    rewrite Hpath, Hsize in Hmiss.
    pose proof (step_cache_kept st e profilePath size Hcached) as [style Hstyle].
    congruence.
Qed.

(** The cached object of a pair stays the same object as long as the image of
    no other render of the pair loads. *)
Lemma run_cached_identical st0 profilePath size style events st :
  (∀ request q,
     requests st0 !! request = Some q →
     rpath (render q) = profilePath → rsize (render q) = size →
     ImageLoaded request ∉ events) →
  cache_get (styleCache st) profilePath size = Some style →
  (∀ request q,
     requests st !! request = Some q →
     rpath (render q) = profilePath → rsize (render q) = size →
     requests st0 !! request = Some q) →
  cache_get (styleCache (run st events)) profilePath size = Some style.
Proof.
  revert st. induction events as [|e events IH]; intros st Hevents Hcached Hold;
    [done|].
  assert (cache_get (styleCache (step st e)) profilePath size = Some style)
    as Hstep.
  { rewrite step_cache_get_other; [done|].
    intros request q -> Hq [Hpath Hsize].
    apply (Hevents request q); [by apply Hold|done..|]. apply elem_of_cons. by left. }
  cbn [run foldl]. apply IH.
  - intros request q Hq Hpath Hsize Hin.
    apply (Hevents request q Hq Hpath Hsize). apply elem_of_cons. by right.
  - done.
  - intros request q Hq Hpath Hsize.
    destruct (step_request_origin _ _ _ _ Hq) as [Hbefore|Hmiss];
      [by apply Hold|].
    rewrite Hpath, Hsize in Hmiss. congruence.
Qed.

(** The step that delivers the [load] event of a render leaves the style of
    that render in the cache under the render's pair. *)
Lemma settle_onload_cache st request q :
  requests st !! request = Some q →
  styleCache (step st (ImageLoaded request))
  = cache_put (styleCache st) (rpath (render q)) (rsize (render q))
      (onload (render q) (set_requests (delete request (requests st)) st)).1.
Proof.
  intros Hq. rewrite (settle_onload _ _ _ Hq).
  set (st1 := set_requests (delete request (requests st)) st).
  destruct (resume_same_cache (onload (render q) st1).2 (awaiting q)
              (onload (render q) st1).1 (onload (render q) st1).2
              (same_cache_refl _)) as [-> _].
  exact (onload_cache (render q) st1).
Qed.

(** C2, as the code has it.  Take a render of (profilePath, size) that is in
    flight and let its image load.  [onload] has put the style under that
    exact pair into the cache when it resolves the promise with it and the
    awaiting handler resumes, and no other pair's entry changed.  From then
    on, after any further events, the pair is in the cache and
    [createProfileStyle] for it answers with the cached style object and
    leaves the state as it is: no canvas, no image request, no new style; and
    no render of the pair is started any more.  The object is the very one
    this render stored as long as no other render of the same pair, in flight
    since before the load, has its image load too; when the image of such a
    duplicate loads, the duplicate's own object is the cached one. *)
Theorem createProfileStyle_memoized
    (st : State) (request : nat) (q : Request) (events : list Event) :
  requests st !! request = Some q →
  ∃ style,
    (onload (render q) (set_requests (delete request (requests st)) st)).1 = style
    ∧ cache_get
        (styleCache
           (onload (render q) (set_requests (delete request (requests st)) st)).2)
        (rpath (render q)) (rsize (render q)) = Some style
    ∧ step st (ImageLoaded request) =
        resume (awaiting q) style
          (onload (render q) (set_requests (delete request (requests st)) st)).2
    ∧ cache_get (styleCache (step st (ImageLoaded request)))
        (rpath (render q)) (rsize (render q)) = Some style
    ∧ createProfileStyle (rpath (render q)) (rsize (render q))
        (step st (ImageLoaded request))
      = (Resolved style, step st (ImageLoaded request))
    ∧ (∀ profilePath' size',
         (profilePath', size') ≠ (rpath (render q), rsize (render q)) →
         cache_get (styleCache (step st (ImageLoaded request))) profilePath' size'
         = cache_get (styleCache st) profilePath' size')
    ∧ (∃ style',
         cache_get (styleCache (run (step st (ImageLoaded request)) events))
           (rpath (render q)) (rsize (render q)) = Some style'
         ∧ createProfileStyle (rpath (render q)) (rsize (render q))
             (run (step st (ImageLoaded request)) events)
           = (Resolved style', run (step st (ImageLoaded request)) events))
    ∧ (∀ request' q',
         requests (run (step st (ImageLoaded request)) events) !! request'
         = Some q' →
         rpath (render q') = rpath (render q) →
         rsize (render q') = rsize (render q) →
         requests st !! request' = Some q')
    ∧ ((∀ request' q',
          requests st !! request' = Some q' →
          rpath (render q') = rpath (render q) →
          rsize (render q') = rsize (render q) →
          ImageLoaded request' ∉ events) →
       createProfileStyle (rpath (render q)) (rsize (render q))
         (run (step st (ImageLoaded request)) events)
       = (Resolved style, run (step st (ImageLoaded request)) events))
    ∧ (∀ request' q',
         requests (run (step st (ImageLoaded request)) events) !! request'
         = Some q' →
         rpath (render q') = rpath (render q) →
         rsize (render q') = rsize (render q) →
         createProfileStyle (rpath (render q)) (rsize (render q))
           (step (run (step st (ImageLoaded request)) events) (ImageLoaded request'))
         = (Resolved
              (onload (render q')
                 (set_requests
                    (delete request'
                       (requests (run (step st (ImageLoaded request)) events)))
                    (run (step st (ImageLoaded request)) events))).1,
            step (run (step st (ImageLoaded request)) events) (ImageLoaded request'))).
Proof.
  intros Hq. eexists. split; [reflexivity|].
  set (st1 := set_requests (delete request (requests st)) st).
  pose proof (settle_onload_cache st request q Hq) as Hcache. fold st1 in Hcache.
  assert (cache_get (styleCache (step st (ImageLoaded request)))
            (rpath (render q)) (rsize (render q)) = Some (onload (render q) st1).1)
    as Hget by (rewrite Hcache; apply cache_get_put_eq).
  assert (∀ request' q',
            requests (step st (ImageLoaded request)) !! request' = Some q' →
            rpath (render q') = rpath (render q) →
            rsize (render q') = rsize (render q) →
            requests st !! request' = Some q') as Hold.
  { intros request' q' Hq' Hpath Hsize.
    destruct (step_request_origin _ _ _ _ Hq') as [Hbefore|Hmiss]; [done|].
    rewrite Hpath, Hsize in Hmiss. congruence. }
  split; [exact (cache_get_put_eq _ _ _ _)|].
  split; [exact (settle_onload _ _ _ Hq)|].
  split; [done|]. split; [by apply createProfileStyle_hit|].
  split; [intros p' size' Hne; rewrite Hcache; by apply cache_get_put_ne|].
  split; [|split; [|split]].
  - destruct (run_cache_kept events (step st (ImageLoaded request))
                (rpath (render q)) (rsize (render q))) as [style' Hstyle'];
      [by eexists|].
    exists style'. split; [done|]. by apply createProfileStyle_hit.
  - apply (run_no_new_render st); [by eexists|exact Hold].
  - intros Hevents. apply createProfileStyle_hit.
    by apply (run_cached_identical st).
  - intros request' q' Hq' Hpath Hsize. apply createProfileStyle_hit.
    rewrite (settle_onload_cache _ _ _ Hq'), <- Hpath, <- Hsize.
    apply cache_get_put_eq.
Qed.

Lemma createProfileStyle_memoized_first_preload :
  ∃ q style,
    requests (mounted true) !! 0%nat = Some q
    ∧ rpath (render q) = "/profiles/profile1.jpeg"
    ∧ rsize (render q) = DEFAULT_MARKER_SIZE
    ∧ createProfileStyle "/profiles/profile1.jpeg" DEFAULT_MARKER_SIZE
        (step (mounted true) (ImageLoaded 0))
      = (Resolved style, step (mounted true) (ImageLoaded 0))
    ∧ createProfileStyle "/profiles/profile1.jpeg" DEFAULT_MARKER_SIZE
        (run (step (mounted true) (ImageLoaded 0))
           [ImageLoaded 1%nat; PointerMove (Some 0%nat); ImageLoaded 3%nat])
      = (Resolved style,
         run (step (mounted true) (ImageLoaded 0))
           [ImageLoaded 1%nat; PointerMove (Some 0%nat); ImageLoaded 3%nat]).
Proof.
  eexists.
  match goal with
  | |- ∃ style, requests _ !! _ = Some ?q ∧ _ =>
      destruct (createProfileStyle_memoized (mounted true) 0%nat q
                  [ImageLoaded 1%nat; PointerMove (Some 0%nat); ImageLoaded 3%nat])
        as (style & _ & _ & _ & _ & Hcall & _ & _ & _ & Hsame & _);
        [vm_compute; reflexivity|]
  end.
  exists style. split; [vm_compute; reflexivity|].
  split; [reflexivity|]. split; [reflexivity|]. split; [exact Hcall|].
  apply Hsame. intros request' q' Hq' Hpath Hsize Hin.
  apply elem_of_cons in Hin as [[= ->]|Hin].
  { vm_compute in Hq'. injection Hq' as <-. discriminate Hsize. }
  apply elem_of_cons in Hin as [Hin|Hin]; [discriminate Hin|].
  apply elem_of_cons in Hin as [[= ->]|Hin].
  { vm_compute in Hq'. injection Hq' as <-. discriminate Hpath. }
  by apply elem_of_nil in Hin.
Defined.

(** C2, counterexample to the claim as written.  At startup the pair
    (profile1.jpeg, 30) is rendered twice, by image requests 0 and 12, before
    either image has loaded.  When the image of request 0 has loaded,
    [createProfileStyle] answers with the style object that render stored;
    when the image of request 12 has loaded as well, it answers with another
    object: the cached object was replaced. *)
Lemma cached_style_replaced_by_duplicate_render :
  (render <$> requests (mounted true) !! 0%nat)
  = (render <$> requests (mounted true) !! 12%nat)
  ∧ rpath <$> (render <$> requests (mounted true) !! 0%nat)
    = Some "/profiles/profile1.jpeg"
  ∧ rsize <$> (render <$> requests (mounted true) !! 0%nat)
    = Some DEFAULT_MARKER_SIZE
  ∧ ∃ first second,
      createProfileStyle "/profiles/profile1.jpeg" DEFAULT_MARKER_SIZE
        (run (mounted true) [ImageLoaded 0%nat])
      = (Resolved first, run (mounted true) [ImageLoaded 0%nat])
      ∧ createProfileStyle "/profiles/profile1.jpeg" DEFAULT_MARKER_SIZE
          (run (mounted true) [ImageLoaded 0%nat; ImageLoaded 12%nat])
        = (Resolved second, run (mounted true) [ImageLoaded 0%nat; ImageLoaded 12%nat])
      ∧ sid first = 2%nat ∧ sid second = 3%nat
      ∧ first ≠ second.
Proof.
  split; [vm_compute; reflexivity|]. split; [vm_compute; reflexivity|].
  split; [vm_compute; reflexivity|].
  eexists _, _. split; [vm_compute; reflexivity|].
  split; [vm_compute; reflexivity|].
  split; [reflexivity|]. split; [reflexivity|]. discriminate.
Qed.

(** ** Requests in flight *)

Section Pending.
Implicit Types (st : State) (q : Request).

Lemma pending_framed request q : framed (pending request q).
Proof.
  split; intros; try assumption.
  match goal with H : pending _ _ _ |- _ => destruct H as [Hq Hlt] end.
  split; cbn [requests nextRequest park set_nextRequest set_requests]; [|lia].
  rewrite lookup_insert_ne by lia. done.
Qed.

Lemma park_pending r k st :
  pending (nextRequest st) {| render := r; awaiting := k |} (park r k st).
Proof.
  split; cbn [requests nextRequest park set_nextRequest set_requests]; [|lia].
  apply lookup_insert_eq.
Qed.

Lemma settle_pending request q request' handler st :
  (∀ r st1, requests (handler r st1).2 = requests st1
            ∧ nextRequest (handler r st1).2 = nextRequest st1) →
  request' ≠ request →
  pending request q st → pending request q (settle request' handler st).
Proof.
  intros Hhandler Hne [Hq Hlt]. unfold settle.
  destruct (requests st !! request') as [q'|]; [|done].
  set (st1 := set_requests _ st).
  destruct (Hhandler (render q') st1) as [Hrequests Hnext].
  destruct (handler (render q') st1) as [style st2]. cbn [snd] in *.
  apply resume_frame; [apply pending_framed|].
  split.
  - rewrite Hrequests. cbn [requests st1 set_requests].
    by rewrite lookup_delete_ne.
  - by rewrite Hnext.
Qed.

Lemma step_pending request q st e :
  ¬ image_event_of request e →
  pending request q st → pending request q (step st e).
Proof.
  intros He Hpending. destruct e as [hit|hit|request'|request'|t]; cbn [step].
  - by apply pointermove_frame; [apply pending_framed|].
  - by apply click_frame; [apply pending_framed|].
  - apply settle_pending; [done| |done].
    intros ->. apply He. by left.
  - apply settle_pending; [done| |done].
    intros ->. apply He. by right.
  - by apply click_timeout_frame; [apply pending_framed|].
Qed.

Lemma run_pending request q events st :
  Forall (λ e, ¬ image_event_of request e) events →
  pending request q st → pending request q (run st events).
Proof.
  revert st. induction events as [|e events IH]; intros st Hevents Hpending;
    [done|].
  apply Forall_cons in Hevents as [He Hevents].
  cbn [run foldl]. by apply IH, step_pending.
Qed.
End Pending.

(** ** Markers stay on the map *)

Section Markers.
Implicit Types (st : State) (marker : Feature) (style : Style).

Lemma markers_kept_refl st : markers_kept st st.
Proof. intros f marker Hf. by exists marker. Qed.

Lemma markers_kept_trans st1 st2 st3 :
  markers_kept st1 st2 → markers_kept st2 st3 → markers_kept st1 st3.
Proof.
  intros H12 H23 f marker Hf.
  destruct (H12 f marker Hf) as (m2 & Hf2 & Hp2 & Hg2).
  destruct (H23 f m2 Hf2) as (m3 & Hf3 & Hp3 & Hg3).
  exists m3. split; [done|]. split; congruence.
Qed.

Lemma feature_setStyle_markers_kept st0 g style st :
  markers_kept st0 st → markers_kept st0 (feature_setStyle g style st).
Proof.
  intros Hkept. eapply markers_kept_trans; [done|].
  intros f marker Hf. cbn [features feature_setStyle set_features].
  rewrite list_lookup_alter. destruct (decide (g = f)) as [->|_].
  - rewrite Hf. by exists (setStyle style marker).
  - by exists marker.
Qed.

Lemma addFeature_markers_kept st0 marker st :
  markers_kept st0 st → markers_kept st0 (addFeature marker st).
Proof.
  intros Hkept. eapply markers_kept_trans; [done|].
  intros f old Hf. exists old. split; [|done].
  cbn [features addFeature set_features]. by apply lookup_app_l_Some.
Qed.

Lemma markers_kept_framed st0 : framed (markers_kept st0).
Proof.
  split; intros; try assumption.
  - by apply feature_setStyle_markers_kept.
  - by apply addFeature_markers_kept.
Qed.

Lemma step_markers_kept st e : markers_kept st (step st e).
Proof.
  destruct e as [hit|hit|request|request|t].
  - exact (pointermove_frame _ (markers_kept_framed st) hit st
             (markers_kept_refl st)).
  - exact (click_frame _ (markers_kept_framed st) hit st (markers_kept_refl st)).
  - destruct (requests st !! request) as [q|] eqn:Hq.
    + rewrite (settle_onload _ _ _ Hq).
      apply resume_frame; [apply markers_kept_framed|].
      exact (markers_kept_refl st).
    + cbn [step]. unfold settle. rewrite Hq. apply markers_kept_refl.
  - destruct (requests st !! request) as [q|] eqn:Hq.
    + rewrite (settle_onerror _ _ _ Hq).
      apply resume_frame; [apply markers_kept_framed|].
      exact (markers_kept_refl st).
    + cbn [step]. unfold settle. rewrite Hq. apply markers_kept_refl.
  - exact (click_timeout_frame _ (markers_kept_framed st) t st
             (markers_kept_refl st)).
Qed.

Lemma run_markers_kept events st : markers_kept st (run st events).
Proof.
  revert st. induction events as [|e events IH]; intros st;
    [apply markers_kept_refl|].
  cbn [run foldl]. eapply markers_kept_trans; [apply step_markers_kept|apply IH].
Qed.
End Markers.

(** ** Failure paths of the compositor *)

(** C3, as the code has it.  For a size that is not negative the promise of
    [createProfileStyle] is never rejected.  It is resolved at once on a cache
    hit and, with an empty style and nothing written to the console, when no
    2d context is available.  Otherwise it is pending on the image and the
    handler that awaits it is parked: it stays parked as long as neither
    event of the image is delivered; the step that delivers the [error] event
    resolves the promise with an empty style after logging
    "Failed to load image: <path>", and the step that delivers the [load]
    event resolves it with the icon. *)
Theorem createProfileStyle_settles (profilePath : string) (size : Z) (st : State) :
  0 ≤ size →
  match createProfileStyle profilePath size st with
  | (Resolved style, st') =>
      console st' = console st
      ∧ (cache_get (styleCache st) profilePath size = Some style
         ∨ (canvas2d st = false ∧ fill style = None ∧ image style = None))
  | (Pending r, st') =>
      st' = st ∧ canvas2d st = true ∧ rpath r = profilePath
      ∧ (∀ k resume,
           pending (nextRequest st) {| render := r; awaiting := k |}
             (await k resume (Pending r, st')))
      ∧ ∀ (st1 : State) (request : nat) (k : Cont),
          pending request {| render := r; awaiting := k |} st1 →
          (∀ events,
             Forall (λ e, ¬ image_event_of request e) events →
             pending request {| render := r; awaiting := k |} (run st1 events))
          ∧ (∃ style st2,
               fill style = None ∧ image style = None
               ∧ console st2 = console st1 ++ ["Failed to load image: " +:+ profilePath]
               ∧ step st1 (ImageFailed request) = resume k style st2)
          ∧ (∃ style st2,
               is_Some (image style)
               ∧ console st2 = console st1
               ∧ step st1 (ImageLoaded request) = resume k style st2)
  | (Rejected, _) => False
  end.
Proof.
  intros Hsize. unfold createProfileStyle.
  destruct (cache_get (styleCache st) profilePath size) as [style|] eqn:Hget.
  { split; [done|]. by left. }
  destruct (canvas2d st) eqn:Hctx; cbn [negb].
  - rewrite draw_backdrop_nonneg by done.
    set (r0 := {| rpath := profilePath |}).
    split; [done|]. split; [done|]. split; [done|].
    split; [intros k resume; apply park_pending|].
    intros st1 request k Hpending.
    split; [intros events Hevents; by apply run_pending|].
    destruct Hpending as [Hq _]. split.
    + rewrite (settle_onerror _ _ _ Hq).
      set (st2 := set_requests _ st1).
      exists (onerror r0 st2).1, (onerror r0 st2).2. by subst r0.
    + rewrite (settle_onload _ _ _ Hq).
      set (st2 := set_requests _ st1).
      exists (onload r0 st2).1, (onload r0 st2).2. subst r0.
      split; [by eexists|]. by split.
  - split; [done|]. right. done.
Qed.

Lemma createProfileStyle_settles_default_marker :
  0 ≤ DEFAULT_MARKER_SIZE
  ∧ ∃ r,
      createProfileStyle "/profiles/profile1.jpeg" DEFAULT_MARKER_SIZE (initial true)
      = (Pending r, initial true)
      ∧ rpath r = "/profiles/profile1.jpeg".
Proof.
  split; [by vm_compute|].
  pose proof (createProfileStyle_settles "/profiles/profile1.jpeg"
                DEFAULT_MARKER_SIZE (initial true)) as Hsettles.
  destruct (createProfileStyle "/profiles/profile1.jpeg" DEFAULT_MARKER_SIZE
              (initial true)) as [[style|r|] st'] eqn:Hcall.
  - discriminate Hcall.
  - exists r. destruct Hsettles as (-> & _ & Hpath & _); [by vm_compute|].
    split; [reflexivity|exact Hpath].
  - discriminate Hcall.
Defined.

(** C3, counterexample to the claim as written.  Without a 2d context the
    promise is resolved with an empty style and the console stays empty: this
    failure is not reported. *)
Lemma createProfileStyle_no_context_is_silent :
  createProfileStyle "/profiles/profile1.jpeg" DEFAULT_MARKER_SIZE (initial false)
  = (Resolved {| sid := 2; fill := None; image := None |},
     set_nextStyle 3 (initial false))
  ∧ console (set_nextStyle 3 (initial false)) = [].
Proof. split; vm_compute; reflexivity. Qed.

(** A negative size makes [context.arc] throw inside the executor, which
    rejects the promise. *)
Lemma createProfileStyle_negative_size_rejects profilePath size st :
  size < 0 →
  canvas2d st = true →
  cache_get (styleCache st) profilePath size = None →
  createProfileStyle profilePath size st = (Rejected, st).
Proof.
  intros Hsize Hctx Hmiss. rewrite (createProfileStyle_miss _ _ _ Hmiss Hctx).
  by rewrite draw_backdrop_negative.
Qed.

(** ** Clicking a desk *)

Lemma click_desk_unfold st c desk id center radius :
  features st !! c = Some desk →
  properties desk = DeskFeature id →
  geometry desk = Circle center radius →
  step st (Click (Some c)) =
    setIsDeskModalOpen true
      (setSelectedDesk (Some {| sd_id := id; sd_coords := center |}) st).
Proof.
  intros Hc Hprops Hgeom. unfold step, click, forEachFeatureAtPixel.
  cbn [mbind option_bind]. rewrite Hc. cbn [mbind option_bind].
  by rewrite Hc, Hprops, Hgeom.
Qed.

(** C4.  A click on a desk marker stores the desk's identity and centre as the
    selected desk and opens the desk dialog, and does nothing else: no timer
    is set, no image is requested, no style is changed. *)
Theorem click_desk (st : State) (c : nat) (desk : Feature)
    (id : string) (center : Coord) (radius : Z) :
  features st !! c = Some desk →
  properties desk = DeskFeature id →
  geometry desk = Circle center radius →
  step st (Click (Some c)) =
    setIsDeskModalOpen true
      (setSelectedDesk (Some {| sd_id := id; sd_coords := center |}) st)
  ∧ selectedDesk (step st (Click (Some c)))
    = Some {| sd_id := id; sd_coords := center |}
  ∧ isDeskModalOpen (step st (Click (Some c))) = true
  ∧ timers (step st (Click (Some c))) = timers st
  ∧ nextTimer (step st (Click (Some c))) = nextTimer st
  ∧ requests (step st (Click (Some c))) = requests st
  ∧ features (step st (Click (Some c))) = features st.
Proof.
  intros Hc Hprops Hgeom.
  rewrite (click_desk_unfold _ _ _ _ _ _ Hc Hprops Hgeom).
  split; [done|]. split; [done|]. split; [done|]. split; [done|].
  split; [done|]. split; done.
Qed.

Lemma click_desk_3 :
  ∃ desk,
    features (mounted true) !! 2%nat = Some desk
    ∧ properties desk = DeskFeature "desk-3"
    ∧ geometry desk = Circle (333, 506) 25
    ∧ selectedDesk (step (mounted true) (Click (Some 2%nat)))
      = Some {| sd_id := "desk-3"; sd_coords := (333, 506) |}
    ∧ isDeskModalOpen (step (mounted true) (Click (Some 2%nat))) = true
    ∧ timers (step (mounted true) (Click (Some 2%nat))) = timers (mounted true).
Proof.
  eexists. split; [vm_compute; reflexivity|].
  match goal with
  | |- properties ?desk = _ ∧ _ =>
      destruct (click_desk (mounted true) 2%nat desk "desk-3" (333, 506) 25)
        as (_ & Hselected & Hopen & Htimers & _);
        [vm_compute; reflexivity|reflexivity|reflexivity|]
  end.
  split; [reflexivity|]. split; [reflexivity|].
  split; [exact Hselected|]. split; [exact Hopen|exact Htimers].
Defined.

(** ** Handlers on a cache hit *)

Lemma await_hit k resume profilePath size st style :
  cache_get (styleCache st) profilePath size = Some style →
  await k resume (createProfileStyle profilePath size st) = resume style st.
Proof. intros Hhit. by rewrite (createProfileStyle_hit _ _ _ _ Hhit). Qed.

Lemma await_pending k resume profilePath size st :
  0 ≤ size →
  cache_get (styleCache st) profilePath size = None →
  canvas2d st = true →
  ∃ canvas,
    draw_backdrop size = Some canvas
    ∧ await k resume (createProfileStyle profilePath size st) =
        set_nextRequest (S (nextRequest st))
          (set_requests
             (<[nextRequest st :=
                  {| render := {| rpath := profilePath; rsize := size;
                                  rcanvas := canvas |};
                     awaiting := k |}]> (requests st)) st).
Proof.
  intros Hsize Hmiss Hctx. rewrite (createProfileStyle_miss _ _ _ Hmiss Hctx).
  rewrite draw_backdrop_nonneg by done. by eexists.
Qed.

Lemma feature_setStyle_lookup st f style :
  features (feature_setStyle f style st) !! f = setStyle style <$> features st !! f.
Proof. apply list_lookup_alter_eq. Qed.

Lemma feature_setStyle_lookup_ne st f style g :
  f ≠ g →
  features (feature_setStyle f style st) !! g = features st !! g.
Proof. intros Hne. by apply list_lookup_alter_ne. Qed.

(** ** Clicking a profile marker *)

Lemma click_profile_unfold st c marker profilePath coords :
  features st !! c = Some marker →
  properties marker = ProfileFeature profilePath →
  geometry marker = Point coords →
  step st (Click (Some c)) =
    await (KClickLarge c) (click_enlarge c)
      (createProfileStyle profilePath CLICK_MARKER_SIZE
         (setIsOpen true
            (setSelectedLocation
               (Some {| sl_coords := coords; sl_profile := profilePath |}) st))).
Proof.
  intros Hc Hprops Hgeom. unfold step, click, forEachFeatureAtPixel.
  cbn [mbind option_bind]. rewrite Hc. cbn [mbind option_bind].
  by rewrite Hc, Hprops, Hgeom.
Qed.

Lemma click_timeout_unfold st t timer marker profilePath :
  timers st !! t = Some timer →
  features st !! target timer = Some marker →
  properties marker = ProfileFeature profilePath →
  step st (TimerFired t) =
    await (KClickRevert (target timer)) (feature_setStyle (target timer))
      (createProfileStyle profilePath DEFAULT_MARKER_SIZE
         (set_timers (delete t (timers st)) st)).
Proof.
  intros Ht Hmarker Hprops. unfold step, click_timeout. rewrite Ht.
  cbn [features set_timers]. by rewrite Hmarker; cbn [fmap option_fmap option_map]; rewrite Hprops.
Qed.

(** The click handler once the image it waits for has arrived: the style goes
    onto the marker and the timer is set, whether the image loaded or not. *)
Lemma click_resumed_on_load st request q c marker :
  requests st !! request = Some q →
  awaiting q = KClickLarge c →
  features st !! c = Some marker →
  ∃ largeStyle,
    fstyle <$> features (step st (ImageLoaded request)) !! c = Some largeStyle
    ∧ icon_size <$> image largeStyle
      = Some (rsize (render q) * 2 + 3 * 2, rsize (render q) * 2 + 3 * 2)
    ∧ cache_get (styleCache (step st (ImageLoaded request)))
        (rpath (render q)) (rsize (render q)) = Some largeStyle
    ∧ timers (step st (ImageLoaded request))
      = <[nextTimer st := {| delay := 200; target := c |}]> (timers st).
Proof.
  intros Hq Hk Hc. rewrite (settle_onload _ _ _ Hq), Hk.
  set (st1 := set_requests (delete request (requests st)) st).
  exists (onload (render q) st1).1. cbn [resume]. unfold click_enlarge.
  split; [|split; [reflexivity|split; [|reflexivity]]].
  - cbn [features setTimeout set_nextTimer set_timers].
    rewrite feature_setStyle_lookup.
    change (features (onload (render q) st1).2) with (features st).
    by rewrite Hc.
  - change (styleCache _)
      with (cache_put (styleCache st) (rpath (render q)) (rsize (render q))
              (onload (render q) st1).1).
    apply cache_get_put_eq.
Qed.

Lemma click_resumed_on_error st request q c marker :
  requests st !! request = Some q →
  awaiting q = KClickLarge c →
  features st !! c = Some marker →
  ∃ emptyStyle,
    fstyle <$> features (step st (ImageFailed request)) !! c = Some emptyStyle
    ∧ fill emptyStyle = None ∧ image emptyStyle = None
    ∧ timers (step st (ImageFailed request))
      = <[nextTimer st := {| delay := 200; target := c |}]> (timers st).
Proof.
  intros Hq Hk Hc. rewrite (settle_onerror _ _ _ Hq), Hk.
  set (st1 := set_requests (delete request (requests st)) st).
  exists (onerror (render q) st1).1. cbn [resume]. unfold click_enlarge.
  split; [|split; [reflexivity|split; reflexivity]].
  cbn [features setTimeout set_nextTimer set_timers].
  rewrite feature_setStyle_lookup.
  change (features (onerror (render q) st1).2) with (features st).
  by rewrite Hc.
Qed.

(** C1, as the code has it.  Every click on a profile marker stores the
    marker's position and image path as the selected location and opens the
    dialog.  If the click-size style is in the cache, that style is on the
    marker when the click's task ends and a timer of 200 ms is registered.  If
    it is not, and a 2d context exists, the handler is parked on a new image
    request and neither the marker's style nor the timers have changed; the
    handler stays parked through every event other than the two events of that
    image.  When the image loads, the click-size icon of 96 by 96 pixels is
    rendered, cached and put on the marker and the timer of 200 ms is
    registered; when it fails, the marker gets the empty style and the timer
    is registered all the same.  When a timer of the marker fires and the
    default-size style is in the cache, the marker gets that style, whatever
    marker is hovered at that moment. *)
Theorem click_profile (st : State) (c : nat) (marker : Feature)
    (profilePath : string) (coords : Coord) :
  features st !! c = Some marker →
  properties marker = ProfileFeature profilePath →
  geometry marker = Point coords →
  selectedLocation (step st (Click (Some c)))
    = Some {| sl_coords := coords; sl_profile := profilePath |}
  ∧ isOpen (step st (Click (Some c))) = true
  ∧ (∀ largeStyle,
       cache_get (styleCache st) profilePath CLICK_MARKER_SIZE = Some largeStyle →
       fstyle <$> features (step st (Click (Some c))) !! c = Some largeStyle
       ∧ timers (step st (Click (Some c)))
         = <[nextTimer st := {| delay := 200; target := c |}]> (timers st))
  ∧ (cache_get (styleCache st) profilePath CLICK_MARKER_SIZE = None →
     canvas2d st = true →
     features (step st (Click (Some c))) = features st
     ∧ timers (step st (Click (Some c))) = timers st
     ∧ awaiting <$> requests (step st (Click (Some c))) !! nextRequest st
       = Some (KClickLarge c)
     ∧ ∀ events,
         Forall (λ e, ¬ image_event_of (nextRequest st) e) events →
         let later := run (step st (Click (Some c))) events in
         awaiting <$> requests later !! nextRequest st = Some (KClickLarge c)
         ∧ (∃ largeStyle,
              fstyle <$> features (step later (ImageLoaded (nextRequest st))) !! c
              = Some largeStyle
              ∧ icon_size <$> image largeStyle = Some (96, 96)
              ∧ cache_get (styleCache (step later (ImageLoaded (nextRequest st))))
                  profilePath CLICK_MARKER_SIZE = Some largeStyle
              ∧ timers (step later (ImageLoaded (nextRequest st)))
                = <[nextTimer later := {| delay := 200; target := c |}]>
                    (timers later))
         ∧ (∃ emptyStyle,
              fstyle <$> features (step later (ImageFailed (nextRequest st))) !! c
              = Some emptyStyle
              ∧ fill emptyStyle = None ∧ image emptyStyle = None
              ∧ timers (step later (ImageFailed (nextRequest st)))
                = <[nextTimer later := {| delay := 200; target := c |}]>
                    (timers later)))
  ∧ (∀ (later : State) (t : nat) (marker' : Feature) (normalStyle : Style),
       timers later !! t = Some {| delay := 200; target := c |} →
       features later !! c = Some marker' →
       properties marker' = ProfileFeature profilePath →
       cache_get (styleCache later) profilePath DEFAULT_MARKER_SIZE
         = Some normalStyle →
       fstyle <$> features (step later (TimerFired t)) !! c = Some normalStyle
       ∧ hoveredFeature (step later (TimerFired t)) = hoveredFeature later).
Proof.
  intros Hc Hprops Hgeom.
  rewrite (click_profile_unfold _ _ _ _ _ Hc Hprops Hgeom).
  set (st1 := setIsOpen true _).
  assert (selectedLocation
            (await (KClickLarge c) (click_enlarge c)
               (createProfileStyle profilePath CLICK_MARKER_SIZE st1))
          = Some {| sl_coords := coords; sl_profile := profilePath |}
          ∧ isOpen
              (await (KClickLarge c) (click_enlarge c)
                 (createProfileStyle profilePath CLICK_MARKER_SIZE st1)) = true)
    as [Hselected Hopen].
  { unfold createProfileStyle, new_Style.
    destruct (cache_get _ _ _); [done|].
    destruct (negb _); [done|]. by destruct (draw_backdrop _). }
  split; [done|]. split; [done|]. split; [|split].
  - intros largeStyle Hhit. rewrite (await_hit _ _ _ _ st1 _ Hhit).
    split; [|done].
    unfold click_enlarge. cbn [features setTimeout set_nextTimer set_timers].
    rewrite feature_setStyle_lookup. cbn [features st1 setIsOpen setSelectedLocation].
    by rewrite Hc.
  - intros Hmiss Hctx.
    destruct (await_pending (KClickLarge c) (click_enlarge c) profilePath
                CLICK_MARKER_SIZE st1) as (canvas & _ & ->); [done..|].
    change (nextRequest st1) with (nextRequest st).
    change (requests st1) with (requests st).
    set (q := {| render := {| rpath := profilePath; rsize := CLICK_MARKER_SIZE;
                              rcanvas := canvas |};
                 awaiting := KClickLarge c |}).
    set (st2 := set_nextRequest (S (nextRequest st))
                  (set_requests (<[nextRequest st := q]> (requests st)) st1)).
    assert (pending (nextRequest st) q st2) as Hpending.
    { split; cbn [requests nextRequest st2 set_nextRequest set_requests]; [|lia].
      apply lookup_insert_eq. }
    split; [done|]. split; [done|].
    split; [by rewrite (proj1 Hpending)|].
    intros events Hevents later.
    destruct (run_pending _ _ _ _ Hevents Hpending) as [Hq _]. fold later in Hq.
    destruct (run_markers_kept events st2 c marker Hc) as (marker' & Hc' & _).
    fold later in Hc'.
    split; [by rewrite Hq|]. split.
    + destruct (click_resumed_on_load later (nextRequest st) q c marker' Hq eq_refl Hc')
        as (largeStyle & Hstyle & Hicon & Hcached & Htimers).
      by exists largeStyle.
    + by apply (click_resumed_on_error later (nextRequest st) q c marker' Hq eq_refl Hc').
  - intros later t marker' normalStyle Ht Hmarker' Hprops' Hdefault.
    rewrite (click_timeout_unfold _ _ _ _ _ Ht Hmarker' Hprops').
    cbn [target].
    rewrite (await_hit _ _ _ _ (set_timers _ later) _ Hdefault).
    split; [|done].
    rewrite feature_setStyle_lookup. cbn [features set_timers].
    by rewrite Hmarker'.
Qed.

Lemma click_profile_at_176_325 :
  ∃ marker largeStyle normalStyle,
    features preloaded !! 7%nat = Some marker
    ∧ properties marker = ProfileFeature "/profiles/profile1.jpeg"
    ∧ geometry marker = Point (176, 325)
    ∧ selectedLocation (step preloaded (Click (Some 7%nat)))
      = Some {| sl_coords := (176, 325); sl_profile := "/profiles/profile1.jpeg" |}
    ∧ isOpen (step preloaded (Click (Some 7%nat))) = true
    ∧ fstyle <$> features (step preloaded (Click (Some 7%nat))) !! 7%nat
      = Some largeStyle
    ∧ icon_size <$> image largeStyle = Some (96, 96)
    ∧ timers (step preloaded (Click (Some 7%nat))) !! 0%nat
      = Some {| delay := 200; target := 7%nat |}
    ∧ fstyle <$>
        features (run preloaded [Click (Some 7%nat); TimerFired 0%nat]) !! 7%nat
      = Some normalStyle
    ∧ icon_size <$> image normalStyle = Some (66, 66).
Proof.
  eexists _, _, _. split; [vm_compute; reflexivity|].
  match goal with
  | |- properties ?marker = _ ∧ _ =>
      destruct (click_profile preloaded 7%nat marker "/profiles/profile1.jpeg"
                  (176, 325))
        as (Hselected & Hopen & Hhit & _ & Htimer);
        [vm_compute; reflexivity|reflexivity|reflexivity|]
  end.
  split; [reflexivity|]. split; [reflexivity|].
  split; [exact Hselected|]. split; [exact Hopen|].
  edestruct Hhit as [Hstyle Htimers]; [vm_compute; reflexivity|].
  split; [exact Hstyle|]. split; [reflexivity|].
  split; [rewrite Htimers; vm_compute; reflexivity|].
  edestruct (Htimer (step preloaded (Click (Some 7%nat))) 0%nat) as [Hnormal _];
    [vm_compute; reflexivity|vm_compute; reflexivity|reflexivity
    |vm_compute; reflexivity|].
  split; [exact Hnormal|reflexivity].
Defined.

(** C1, counterexample to the claim as written.  In [profile1_retried] the
    click-size style of the marker at (176, 325) is not in the cache.  The
    click on it stores the selection and opens the dialog, but when the click's
    task ends the marker still has its default icon of 66 by 66 pixels, no
    timer is registered and the handler waits for image request 16.  When that
    image then fails, the marker gets the empty style, not an enlarged one. *)
Lemma click_profile_not_enlarged_at_once :
  geometry <$> features profile1_retried !! 7%nat = Some (Point (176, 325))
  ∧ properties <$> features profile1_retried !! 7%nat
    = Some (ProfileFeature "/profiles/profile1.jpeg")
  ∧ selectedLocation (step profile1_retried (Click (Some 7%nat)))
    = Some {| sl_coords := (176, 325); sl_profile := "/profiles/profile1.jpeg" |}
  ∧ features (step profile1_retried (Click (Some 7%nat)))
    = features profile1_retried
  ∧ (features (step profile1_retried (Click (Some 7%nat))) !! 7%nat
       ≫= λ marker, icon_size <$> image (fstyle marker)) = Some (66, 66)
  ∧ timers (step profile1_retried (Click (Some 7%nat))) = ∅
  ∧ awaiting <$> requests (step profile1_retried (Click (Some 7%nat))) !! 16%nat
    = Some (KClickLarge 7)
  ∧ (features (run profile1_retried [Click (Some 7%nat); ImageFailed 16%nat])
       !! 7%nat ≫= λ marker, image (fstyle marker)) = None.
Proof. do 7 (split; [vm_compute; reflexivity|]). vm_compute; reflexivity. Qed.

(** ** At most one hovered marker *)

Section Hover.
Implicit Types (st : State) (marker : Feature) (style : Style).







End Hover.


(** ** Hovering a marker and leaving it *)

Section HoverRoundTrip.
Implicit Types (st : State) (marker : Feature) (style : Style).

(** Entering a marker touches no other marker. *)
Lemma hover_enter_other st feature f :
  feature ≠ Some f →
  features (hover_enter feature st) !! f = features st !! f
  ∧ (hoveredFeature st ≠ Some f → hoveredFeature (hover_enter feature st) ≠ Some f).
Proof.
  intros Hne. unfold hover_enter.
  destruct feature as [g|]; [|done].
  assert (g ≠ f) as Hgf by congruence.
  destruct (decide _); [done|].
  destruct (properties <$> features st !! g) as [[profilePath|id]|]; [| |done].
  - pose proof (createProfileStyle_state profilePath HOVER_MARKER_SIZE st) as Hst.
    destruct (createProfileStyle profilePath HOVER_MARKER_SIZE st)
      as [[style|r|] st2]; cbn [await snd] in *.
    + unfold hover_apply. cbn [features hoveredFeature set_hoveredFeature].
      rewrite feature_setStyle_lookup_ne by done.
      split; [by destruct Hst as [->| ->]|congruence].
    + by destruct Hst as [->| ->].
    + by destruct Hst as [->| ->].
  - unfold hover_apply. cbn [features hoveredFeature set_hoveredFeature].
    rewrite feature_setStyle_lookup_ne by done. split; [done|congruence].
Qed.


Lemma pointermove_revert st hit h marker style :
  hoveredFeature st = Some h →
  forEachFeatureAtPixel hit st ≠ Some h →
  features st !! h = Some marker →
  default_style st marker = Some style →
  pointermove hit st =
    hover_enter (forEachFeatureAtPixel hit st)
      (set_hoveredFeature None
         (feature_setStyle h style
            (set_cursor
               (match forEachFeatureAtPixel hit st with
                | Some _ => "pointer"
                | None => ""
                end) st))).
Proof.
  intros Hh Hne Hmarker Hstyle. unfold pointermove.
  cbn [hoveredFeature set_cursor features]. rewrite Hh.
  destruct (decide _) as [Heq|_]; [by destruct Hne|].
  rewrite Hmarker. cbn [fmap option_fmap option_map].
  unfold default_style in Hstyle. destruct (properties marker).
  - rewrite (await_hit _ _ _ _ (set_cursor _ st) _ Hstyle).
    unfold hover_revert. cbn [hoveredFeature set_cursor]. by rewrite Hh.
  - injection Hstyle as <-.
    unfold hover_revert. cbn [hoveredFeature set_cursor]. by rewrite Hh.
Qed.

Lemma forEachFeatureAtPixel_on_map st f marker :
  features st !! f = Some marker → forEachFeatureAtPixel (Some f) st = Some f.
Proof.
  intros Hf. unfold forEachFeatureAtPixel. cbn [mbind option_bind]. by rewrite Hf.
Qed.

Lemma forEachFeatureAtPixel_other st hit f :
  hit ≠ Some f → forEachFeatureAtPixel hit st ≠ Some f.
Proof.
  intros Hne. unfold forEachFeatureAtPixel. destruct hit as [g|]; [|done].
  cbn [mbind option_bind]. destruct (features st !! g); [|done].
  cbn [mbind option_bind]. congruence.
Qed.



(** The pointer leaves the hovered marker [f]. *)
Lemma pointermove_away st f marker hit style :
  hoveredFeature st = Some f →
  features st !! f = Some marker →
  default_style st marker = Some style →
  hit ≠ Some f →
  features (pointermove hit st) !! f = Some (setStyle style marker)
  ∧ hoveredFeature (pointermove hit st) ≠ Some f.
Proof.
  intros Hh Hf Hstyle Hne.
  pose proof (forEachFeatureAtPixel_other st hit f Hne) as Hne'.
  rewrite (pointermove_revert st hit f marker style Hh Hne' Hf Hstyle).
  edestruct hover_enter_other as [-> Hhovered]; [exact Hne'|].
  split; [|by apply Hhovered].
  cbn [features set_hoveredFeature]. rewrite feature_setStyle_lookup.
  cbn [features set_cursor]. by rewrite Hf.
Qed.
End HoverRoundTrip.


(** ** The state after a successful preload *)

Example mounted_preloads :
  size (requests (mounted true)) = 15%nat
  ∧ preloading (mounted true) = Some 15%nat
  ∧ length (features (mounted true)) = 7%nat.
Proof. do 2 (split; [vm_compute; reflexivity|]). vm_compute; reflexivity. Qed.

Example preloaded_markers :
  length (features preloaded) = 12%nat
  ∧ size (requests preloaded) = 0%nat
  ∧ preloading preloaded = None
  ∧ console preloaded = [].
Proof. do 3 (split; [vm_compute; reflexivity|]). vm_compute; reflexivity. Qed.

Example mounted_without_context :
  length (features (mounted false)) = 12%nat
  ∧ size (requests (mounted false)) = 0%nat
  ∧ console (mounted false) = []
  ∧ Forall (λ marker, image (fstyle marker) = None) (features (mounted false)).
Proof.
  do 3 (split; [vm_compute; reflexivity|]).
  vm_compute. repeat constructor.
Qed.

Example profile2_retried_markers :
  length (features profile2_retried) = 12%nat
  ∧ size (requests profile2_retried) = 0%nat
  ∧ console profile2_retried
    = replicate 3 "Failed to load image: /profiles/profile2.jpeg"
  ∧ cache_get (styleCache profile2_retried) "/profiles/profile2.jpeg"
      HOVER_MARKER_SIZE = None.
Proof. do 3 (split; [vm_compute; reflexivity|]). vm_compute; reflexivity. Qed.






(** ** Stale style computations *)



(** ** Desks that share an identity *)

(** No handler looks at the identity of a desk: every handler commutes with
    a renaming of the identities. *)
Section Rename.
Variable rename : string → string.

Lemma createProfileStyle_rename profilePath size st :
  createProfileStyle profilePath size (rename_ids rename st)
  = ((createProfileStyle profilePath size st).1,
     rename_ids rename (createProfileStyle profilePath size st).2).
Proof.
  unfold createProfileStyle, new_Style.
  change (styleCache (rename_ids rename st)) with (styleCache st).
  change (canvas2d (rename_ids rename st)) with (canvas2d st).
  destruct (cache_get _ _ _); [reflexivity|].
  destruct (negb _); [reflexivity|]. by destruct (draw_backdrop _).
Qed.

Lemma await_rename k resume profilePath size st :
  (∀ style st, resume style (rename_ids rename st) = rename_ids rename (resume style st)) →
  await k resume (createProfileStyle profilePath size (rename_ids rename st))
  = rename_ids rename (await k resume (createProfileStyle profilePath size st)).
Proof.
  intros Hresume. rewrite createProfileStyle_rename.
  destruct (createProfileStyle profilePath size st) as [[style|r|] st'];
    cbn [await fst snd]; [apply Hresume|reflexivity..].
Qed.

Lemma feature_setStyle_rename f style st :
  feature_setStyle f style (rename_ids rename st)
  = rename_ids rename (feature_setStyle f style st).
Proof.
  unfold feature_setStyle.
  change (features (rename_ids rename st)) with (rename_feature rename <$> features st).
  rewrite <- (list_fmap_alter (rename_feature rename) (setStyle style)
                (setStyle style)) by by apply Forall_true.
  reflexivity.
Qed.

Lemma addFeature_rename location style st :
  addFeature (profile_marker location style) (rename_ids rename st)
  = rename_ids rename (addFeature (profile_marker location style) st).
Proof.
  unfold addFeature at 2. unfold rename_ids at 2.
  cbn [features selectedDesk set_features]. rewrite fmap_app. reflexivity.
Qed.

Lemma lookup_properties_rename st f :
  properties <$> features (rename_ids rename st) !! f
  = rename_properties rename <$> (properties <$> features st !! f).
Proof.
  change (features (rename_ids rename st)) with (rename_feature rename <$> features st).
  rewrite list_lookup_fmap. by destruct (features st !! f).
Qed.

Lemma forEachFeatureAtPixel_rename hit st :
  forEachFeatureAtPixel hit (rename_ids rename st) = forEachFeatureAtPixel hit st.
Proof.
  unfold forEachFeatureAtPixel. destruct hit as [f|]; [|reflexivity].
  change (features (rename_ids rename st)) with (rename_feature rename <$> features st).
  cbn [mbind option_bind]. rewrite list_lookup_fmap.
  by destruct (features st !! f).
Qed.

Lemma hover_apply_rename f style st :
  hover_apply f style (rename_ids rename st)
  = rename_ids rename (hover_apply f style st).
Proof. unfold hover_apply. by rewrite feature_setStyle_rename. Qed.

Lemma hover_enter_rename feature st :
  hover_enter feature (rename_ids rename st)
  = rename_ids rename (hover_enter feature st).
Proof.
  unfold hover_enter. destruct feature as [f|]; [|reflexivity].
  change (hoveredFeature (rename_ids rename st)) with (hoveredFeature st).
  destruct (decide _); [reflexivity|].
  rewrite lookup_properties_rename.
  destruct (properties <$> features st !! f) as [[profilePath|id]|];
    cbn [fmap option_fmap option_map rename_properties]; [| |reflexivity].
  - apply await_rename. intros. apply hover_apply_rename.
  - apply hover_apply_rename.
Qed.

Lemma hover_revert_rename feature style st :
  hover_revert feature style (rename_ids rename st)
  = rename_ids rename (hover_revert feature style st).
Proof.
  unfold hover_revert.
  change (hoveredFeature (rename_ids rename st)) with (hoveredFeature st).
  destruct (hoveredFeature st) as [h|]; [|reflexivity].
  rewrite feature_setStyle_rename.
  exact (hover_enter_rename feature
           (set_hoveredFeature None (feature_setStyle h style st))).
Qed.

Lemma pointermove_rename hit st :
  pointermove hit (rename_ids rename st) = rename_ids rename (pointermove hit st).
Proof.
  unfold pointermove. rewrite forEachFeatureAtPixel_rename.
  set (feature := forEachFeatureAtPixel hit st).
  set (c := match feature with Some _ => "pointer" | None => "" end).
  change (set_cursor c (rename_ids rename st))
    with (rename_ids rename (set_cursor c st)).
  generalize (set_cursor c st). clearbody feature. clear c. intros st1.
  change (hoveredFeature (rename_ids rename st1)) with (hoveredFeature st1).
  destruct (hoveredFeature st1) as [h|]; [|apply hover_enter_rename].
  destruct (decide _); [apply hover_enter_rename|].
  rewrite lookup_properties_rename.
  destruct (properties <$> features st1 !! h) as [[profilePath|id]|];
    cbn [fmap option_fmap option_map rename_properties]; [| |reflexivity].
  - apply await_rename. intros. apply hover_revert_rename.
  - apply hover_revert_rename.
Qed.

Lemma click_enlarge_rename c style st :
  click_enlarge c style (rename_ids rename st)
  = rename_ids rename (click_enlarge c style st).
Proof. unfold click_enlarge. by rewrite feature_setStyle_rename. Qed.

Lemma click_rename hit st :
  click hit (rename_ids rename st) = rename_ids rename (click hit st).
Proof.
  unfold click. rewrite forEachFeatureAtPixel_rename.
  destruct (forEachFeatureAtPixel hit st) as [c|]; [|reflexivity].
  change (features (rename_ids rename st)) with (rename_feature rename <$> features st).
  rewrite list_lookup_fmap.
  destruct (features st !! c) as [clickedFeature|];
    cbn [fmap option_fmap option_map]; [|reflexivity].
  cbn [properties geometry rename_feature].
  destruct (properties clickedFeature) as [profilePath|id],
    (geometry clickedFeature) as [coords|center radius];
    cbn [rename_properties]; try reflexivity.
  exact (await_rename (KClickLarge c) (click_enlarge c) profilePath
           CLICK_MARKER_SIZE
           (setIsOpen true
              (setSelectedLocation
                 (Some {| sl_coords := coords; sl_profile := profilePath |}) st))
           (click_enlarge_rename c)).
Qed.

Lemma click_timeout_rename t st :
  click_timeout t (rename_ids rename st) = rename_ids rename (click_timeout t st).
Proof.
  unfold click_timeout.
  change (timers (rename_ids rename st)) with (timers st).
  destruct (timers st !! t) as [timer|]; [|reflexivity].
  change (set_timers (delete t (timers st)) (rename_ids rename st))
    with (rename_ids rename (set_timers (delete t (timers st)) st)).
  generalize (set_timers (delete t (timers st)) st). intros st1.
  rewrite lookup_properties_rename.
  destruct (properties <$> features st1 !! target timer) as [[profilePath|id]|];
    cbn [fmap option_fmap option_map rename_properties]; [|reflexivity..].
  apply await_rename. intros. apply feature_setStyle_rename.
Qed.

Lemma add_profile_features_rename locations st :
  add_profile_features locations (rename_ids rename st)
  = rename_ids rename (add_profile_features locations st).
Proof.
  revert st. induction locations as [|location rest IH]; intros st; [reflexivity|].
  cbn [add_profile_features]. apply await_rename. intros style st'.
  fold (profile_marker location style). by rewrite addFeature_rename, IH.
Qed.

Lemma preload_done_rename st :
  preload_done (rename_ids rename st) = rename_ids rename (preload_done st).
Proof.
  unfold preload_done, preload_settled.
  change (preloading (rename_ids rename st)) with (preloading st).
  destruct (preloading st) as [[|n]|]; [reflexivity| |reflexivity].
  cbn [preloading set_preloading setSelectedDesk set_features rename_ids].
  destruct n; [|reflexivity].
  exact (add_profile_features_rename DEFAULT_LOCATIONS
           (set_preloading None (set_preloading (Some O) st))).
Qed.

Lemma resume_rename k style st :
  resume k style (rename_ids rename st) = rename_ids rename (resume k style st).
Proof.
  destruct k as [|location rest|feature|feature|c|c]; cbn [resume].
  - apply preload_done_rename.
  - fold (profile_marker location style).
    by rewrite addFeature_rename, add_profile_features_rename.
  - apply hover_revert_rename.
  - apply hover_apply_rename.
  - apply click_enlarge_rename.
  - apply feature_setStyle_rename.
Qed.

Lemma settle_rename request handler st :
  (∀ r st, handler r (rename_ids rename st)
           = ((handler r st).1, rename_ids rename (handler r st).2)) →
  settle request handler (rename_ids rename st)
  = rename_ids rename (settle request handler st).
Proof.
  intros Hhandler. unfold settle.
  change (requests (rename_ids rename st)) with (requests st).
  destruct (requests st !! request) as [q|]; [|reflexivity].
  change (set_requests (delete request (requests st)) (rename_ids rename st))
    with (rename_ids rename (set_requests (delete request (requests st)) st)).
  rewrite Hhandler.
  destruct (handler (render q) _) as [style st2]. apply resume_rename.
Qed.

Lemma step_rename st e :
  step (rename_ids rename st) e = rename_ids rename (step st e).
Proof.
  destruct e as [hit|hit|request|request|t]; cbn [step].
  - apply pointermove_rename.
  - apply click_rename.
  - by apply settle_rename.
  - by apply settle_rename.
  - apply click_timeout_rename.
Qed.
End Rename.

(** C8.  The desk configuration has two entries with the identity "desk-6".
    Nothing checks identities: every entry becomes a feature at startup, and
    at any later time both desk-6 features are on the map, each with its own
    circle, and a click on either selects "desk-6" at that feature's own
    centre.  No handler looks a feature up by its identity or compares
    identities: whatever the identities are renamed to, every handler does
    the same with the renamed identities. *)
Theorem duplicate_desk_both_registered (context2d : bool) (events : list Event) :
  did <$> DESK_LOCATIONS !! 5%nat = Some "desk-6"
  ∧ did <$> DESK_LOCATIONS !! 6%nat = Some "desk-6"
  ∧ length (features (initial context2d)) = length DESK_LOCATIONS
  ∧ (∃ first second,
       features (run (mounted context2d) events) !! 5%nat = Some first
       ∧ features (run (mounted context2d) events) !! 6%nat = Some second
       ∧ properties first = DeskFeature "desk-6"
       ∧ properties second = DeskFeature "desk-6"
       ∧ geometry first = Circle (309, 250) 25
       ∧ geometry second = Circle (309, 96) 25
       ∧ selectedDesk (step (run (mounted context2d) events) (Click (Some 5%nat)))
         = Some {| sd_id := "desk-6"; sd_coords := (309, 250) |}
       ∧ selectedDesk (step (run (mounted context2d) events) (Click (Some 6%nat)))
         = Some {| sd_id := "desk-6"; sd_coords := (309, 96) |})
  ∧ ∀ (rename : string → string) (st : State) (e : Event),
      step (rename_ids rename st) e = rename_ids rename (step st e).
Proof.
  split; [reflexivity|]. split; [reflexivity|]. split; [reflexivity|].
  split; [|exact step_rename].
  assert (∃ first second,
            features (mounted context2d) !! 5%nat = Some first
            ∧ features (mounted context2d) !! 6%nat = Some second
            ∧ properties first = DeskFeature "desk-6"
            ∧ properties second = DeskFeature "desk-6"
            ∧ geometry first = Circle (309, 250) 25
            ∧ geometry second = Circle (309, 96) 25)
    as (first0 & second0 & Hfirst0 & Hsecond0 & Hp1 & Hp2 & Hg1 & Hg2).
  { destruct context2d; eexists _, _;
      (split; [vm_compute; reflexivity|]); (split; [vm_compute; reflexivity|]);
      (split; [reflexivity|]); (split; [reflexivity|]); split; reflexivity. }
  destruct (run_markers_kept events (mounted context2d) 5%nat first0 Hfirst0)
    as (first & Hfirst & Hpf & Hgf).
  destruct (run_markers_kept events (mounted context2d) 6%nat second0 Hsecond0)
    as (second & Hsecond & Hps & Hgs).
  rewrite Hp1 in Hpf. rewrite Hp2 in Hps. rewrite Hg1 in Hgf. rewrite Hg2 in Hgs.
  exists first, second. do 6 (split; [done|]).
  split.
  - by rewrite (click_desk_unfold _ _ _ _ _ _ Hfirst Hpf Hgf).
  - by rewrite (click_desk_unfold _ _ _ _ _ _ Hsecond Hps Hgs).
Qed.

(** * Further properties of the handlers *)

(** ** Which event changes what *)

(** X1.  The cursor is set by pointer moves only: after a pointer move it is
    "pointer" when the hit test finds a feature and "" when it finds none,
    also when the handler is left waiting for an image; no other event
    touches it. *)
Theorem cursor_follows_pointer (st : State) (e : Event) :
  cursor (step st e) =
    match e with
    | PointerMove hit =>
        match forEachFeatureAtPixel hit st with
        | Some _ => "pointer"
        | None => ""
        end
    | _ => cursor st
    end.
Proof.
  destruct e as [hit|hit|request|request|t]; cbn [step].
  - set (c := match forEachFeatureAtPixel hit st with
              | Some _ => "pointer" | None => "" end).
    apply (pointermove_keeps (λ s, cursor s = c)); kept.
  - apply (click_keeps (λ s, cursor s = cursor st)); kept.
  - apply (settle_keeps (λ s, cursor s = cursor st)); kept.
  - apply (settle_keeps (λ s, cursor s = cursor st)); kept.
  - apply (click_timeout_keeps (λ s, cursor s = cursor st)); kept.
Qed.

(** X2.  [console.error] is called only when an image that is being fetched
    fails: exactly once, with a line that names the path of that image.  No
    other event adds an error line, and none is ever removed.  ([console]
    holds the [console.error] lines; the [console.log] line of a click is not
    one of them.) *)
Theorem console_error_only_on_image_failure (st : State) (e : Event) :
  console (step st e) =
    match e with
    | ImageFailed request =>
        match requests st !! request with
        | Some q => console st ++ ["Failed to load image: " +:+ rpath (render q)]
        | None => console st
        end
    | _ => console st
    end.
Proof.
  destruct e as [hit|hit|request|request|t].
  - apply (pointermove_keeps (λ s, console s = console st)); kept.
  - apply (click_keeps (λ s, console s = console st)); kept.
  - apply (settle_keeps (λ s, console s = console st)); kept.
  - destruct (requests st !! request) as [q|] eqn:Hq.
    + rewrite (settle_onerror _ _ _ Hq).
      apply (resume_keeps
               (λ s, console s
                     = console st ++ ["Failed to load image: " +:+ rpath (render q)]));
        kept.
    + cbn [step]. unfold settle. by rewrite Hq.
  - apply (click_timeout_keeps (λ s, console s = console st)); kept.
Qed.

(** X3.  The style cache is written only by [onload]: the [load] event of an
    image that is being fetched stores the new icon under the path and size
    of that request, overwriting what was there; every other event, a failed
    image included, leaves the cache exactly as it was. *)
Theorem cache_written_only_by_onload (st : State) (e : Event) :
  styleCache (step st e) =
    match e with
    | ImageLoaded request =>
        match requests st !! request with
        | Some q =>
            cache_put (styleCache st) (rpath (render q)) (rsize (render q))
              (onload (render q) (set_requests (delete request (requests st)) st)).1
        | None => styleCache st
        end
    | _ => styleCache st
    end.
Proof.
  destruct e as [hit|hit|request|request|t].
  - apply (pointermove_keeps (λ s, styleCache s = styleCache st)); kept.
  - apply (click_keeps (λ s, styleCache s = styleCache st)); kept.
  - destruct (requests st !! request) as [q|] eqn:Hq.
    + rewrite (settle_onload _ _ _ Hq).
      set (st1 := set_requests _ st).
      apply (resume_keeps
               (λ s, styleCache s
                     = cache_put (styleCache st) (rpath (render q))
                         (rsize (render q)) (onload (render q) st1).1)); kept.
    + cbn [step]. unfold settle. by rewrite Hq.
  - apply (settle_keeps (λ s, styleCache s = styleCache st)); kept.
  - apply (click_timeout_keeps (λ s, styleCache s = styleCache st)); kept.
Qed.

(** X4.  Only clicks change the selection and the dialog flags: a pointer
    move, an image event or a timer leaves [selectedLocation], [selectedDesk],
    [isOpen] and [isDeskModalOpen] as they are.  A click that hits no feature
    changes nothing at all of the state (it only writes its [console.log]
    line), and no click closes a dialog that is open. *)
Theorem dialogs_change_only_on_click (st : State) (e : Event) :
  match e with
  | Click hit =>
      (forEachFeatureAtPixel hit st = None → step st e = st)
      ∧ (isOpen st = true → isOpen (step st e) = true)
      ∧ (isDeskModalOpen st = true → isDeskModalOpen (step st e) = true)
  | _ =>
      selectedLocation (step st e) = selectedLocation st
      ∧ selectedDesk (step st e) = selectedDesk st
      ∧ isOpen (step st e) = isOpen st
      ∧ isDeskModalOpen (step st e) = isDeskModalOpen st
  end.
Proof.
  set (same := λ s,
         selectedLocation s = selectedLocation st
         ∧ selectedDesk s = selectedDesk st
         ∧ isOpen s = isOpen st
         ∧ isDeskModalOpen s = isDeskModalOpen st).
  assert (same st) as Hsame by done.
  destruct e as [hit|hit|request|request|t].
  - apply (pointermove_keeps same); kept.
  - cbn [step]. split; [|split].
    + intros Hmiss. unfold click. by rewrite Hmiss.
    + intros Hopen. unfold click.
      destruct (forEachFeatureAtPixel hit st) as [c|]; [|done].
      destruct (features st !! c) as [clickedFeature|]; [|done].
      destruct (properties clickedFeature), (geometry clickedFeature); try done.
      apply (await_keeps (λ s, isOpen s = true)); kept.
    + intros Hopen. unfold click.
      destruct (forEachFeatureAtPixel hit st) as [c|]; [|done].
      destruct (features st !! c) as [clickedFeature|]; [|done].
      destruct (properties clickedFeature), (geometry clickedFeature); try done.
      apply (await_keeps (λ s, isDeskModalOpen s = true)); kept.
  - apply (settle_keeps same); kept.
  - apply (settle_keeps same); kept.
  - apply (click_timeout_keeps same); kept.
Qed.

(** X5.  Clicks and timers neither read nor write the hover state:
    [hoveredFeature] is the same after a click or an expired timer as before,
    whatever the click hit and whether or not its style was cached. *)
Theorem hover_state_untouched_by_click (st : State) :
  (∀ hit, hoveredFeature (step st (Click hit)) = hoveredFeature st)
  ∧ (∀ t, hoveredFeature (step st (TimerFired t)) = hoveredFeature st).
Proof.
  split.
  - intros hit.
    apply (click_keeps (λ s, hoveredFeature s = hoveredFeature st)); kept.
  - intros t.
    apply (click_timeout_keeps (λ s, hoveredFeature s = hoveredFeature st)); kept.
Qed.

(** ** The click animation on a hovered marker *)

Lemma pointermove_same_marker st f marker :
  features st !! f = Some marker →
  hoveredFeature st = Some f →
  pointermove (Some f) st = set_cursor "pointer" st.
Proof.
  intros Hf Hh. unfold pointermove.
  rewrite (forEachFeatureAtPixel_on_map _ _ _ Hf).
  cbn [hoveredFeature set_cursor]. rewrite Hh.
  destruct (decide (Some f = Some f)) as [_|Hne]; [|done].
  unfold hover_enter. cbn [hoveredFeature set_cursor]. rewrite Hh.
  by destruct (decide (Some f = Some f)).
Qed.

Lemma click_profile_cached st c marker profilePath coords largeStyle :
  features st !! c = Some marker →
  properties marker = ProfileFeature profilePath →
  geometry marker = Point coords →
  cache_get (styleCache st) profilePath CLICK_MARKER_SIZE = Some largeStyle →
  step st (Click (Some c)) =
    click_enlarge c largeStyle
      (setIsOpen true
         (setSelectedLocation
            (Some {| sl_coords := coords; sl_profile := profilePath |}) st)).
Proof.
  intros Hc Hprops Hgeom Hhit.
  rewrite (click_profile_unfold _ _ _ _ _ Hc Hprops Hgeom).
  by apply await_hit.
Qed.

(** X6.  A profile marker is hovered and its click-size and default-size
    styles are cached.  A click on it followed by the expiry of the timer that
    the click sets leaves the marker with its default style while it is still
    the hovered feature, and a further pointer move over the marker changes
    nothing but the cursor: the hover style does not come back until the
    pointer has left the marker. *)
Theorem click_animation_drops_hover (st : State) (c : nat) (marker : Feature)
    (profilePath : string) (coords : Coord) (largeStyle normalStyle : Style) :
  features st !! c = Some marker →
  properties marker = ProfileFeature profilePath →
  geometry marker = Point coords →
  hoveredFeature st = Some c →
  cache_get (styleCache st) profilePath CLICK_MARKER_SIZE = Some largeStyle →
  cache_get (styleCache st) profilePath DEFAULT_MARKER_SIZE = Some normalStyle →
  fstyle <$> features (run st [Click (Some c); TimerFired (nextTimer st)]) !! c
    = Some normalStyle
  ∧ hoveredFeature (run st [Click (Some c); TimerFired (nextTimer st)]) = Some c
  ∧ run st [Click (Some c); TimerFired (nextTimer st); PointerMove (Some c)]
    = set_cursor "pointer" (run st [Click (Some c); TimerFired (nextTimer st)]).
Proof.
  intros Hc Hprops Hgeom Hh Hlarge Hnormal.
  cbn [run foldl].
  rewrite (click_profile_cached _ _ _ _ _ _ Hc Hprops Hgeom Hlarge).
  set (st1 := click_enlarge c largeStyle _).
  assert (timers st1 !! nextTimer st
          = Some {| delay := CLICK_ANIMATION_DURATION; target := c |}) as Ht
    by apply lookup_insert_eq.
  assert (features st1 !! c = Some (setStyle largeStyle marker)) as Hc1.
  { subst st1. unfold click_enlarge.
    cbn [features setTimeout set_nextTimer set_timers].
    rewrite feature_setStyle_lookup.
    cbn [features setIsOpen setSelectedLocation]. by rewrite Hc. }
  rewrite (click_timeout_unfold st1 _ _ _ profilePath Ht Hc1 Hprops).
  cbn [target].
  rewrite (await_hit _ _ _ _ (set_timers _ st1) _ Hnormal).
  set (st2 := feature_setStyle c normalStyle _).
  assert (features st2 !! c = Some (setStyle normalStyle (setStyle largeStyle marker)))
    as Hc2.
  { subst st2. rewrite feature_setStyle_lookup. cbn [features set_timers].
    by rewrite Hc1. }
  split; [by rewrite Hc2|]. split; [done|].
  by apply (pointermove_same_marker st2 c _ Hc2).
Qed.

Lemma click_animation_drops_hover_profile1 :
  ∃ marker largeStyle normalStyle,
    features (step preloaded (PointerMove (Some 7%nat))) !! 7%nat = Some marker
    ∧ properties marker = ProfileFeature "/profiles/profile1.jpeg"
    ∧ geometry marker = Point (176, 325)
    ∧ hoveredFeature (step preloaded (PointerMove (Some 7%nat))) = Some 7%nat
    ∧ cache_get (styleCache (step preloaded (PointerMove (Some 7%nat))))
        "/profiles/profile1.jpeg" CLICK_MARKER_SIZE = Some largeStyle
    ∧ cache_get (styleCache (step preloaded (PointerMove (Some 7%nat))))
        "/profiles/profile1.jpeg" DEFAULT_MARKER_SIZE = Some normalStyle
    ∧ icon_size <$> image (fstyle marker) = Some (86, 86)
    ∧ icon_size <$> image normalStyle = Some (66, 66)
    ∧ fstyle <$>
        features
          (run (step preloaded (PointerMove (Some 7%nat)))
             [Click (Some 7%nat); TimerFired 0%nat]) !! 7%nat
      = Some normalStyle.
Proof.
  eexists _, _, _.
  split; [vm_compute; reflexivity|].
  match goal with
  | |- properties ?marker = _ ∧ _ =>
      pose proof (click_animation_drops_hover
                    (step preloaded (PointerMove (Some 7%nat))) 7%nat marker
                    "/profiles/profile1.jpeg" (176, 325)) as Hanimation
  end.
  split; [reflexivity|]. split; [reflexivity|].
  split; [vm_compute; reflexivity|]. split; [vm_compute; reflexivity|].
  split; [vm_compute; reflexivity|]. split; [reflexivity|]. split; [reflexivity|].
  edestruct Hanimation as (Hstyle & _ & _);
    [vm_compute; reflexivity|reflexivity|reflexivity|vm_compute; reflexivity
    |vm_compute; reflexivity|vm_compute; reflexivity|].
  change (nextTimer (step preloaded (PointerMove (Some 7%nat)))) with 0%nat
    in Hstyle.
  exact Hstyle.
Defined.

(** ** Markers, timers and requests over a whole run *)

(** X7.  No sequence of events removes a marker, moves it, or changes its
    identity or image path: a feature that is on the map stays at its index
    with the same geometry and properties (only its style can differ), and
    the number of features never goes down. *)
Theorem markers_never_removed (st : State) (events : list Event)
    (f : nat) (marker : Feature) :
  features st !! f = Some marker →
  (∃ marker',
     features (run st events) !! f = Some marker'
     ∧ properties marker' = properties marker
     ∧ geometry marker' = geometry marker)
  ∧ (length (features st) ≤ length (features (run st events)))%nat.
Proof.
  intros Hf. split; [by apply run_markers_kept|].
  destruct (decide (length (features st) = 0)%nat) as [->|Hpos]; [lia|].
  destruct (lookup_lt_is_Some_2 (features st) (pred (length (features st))))
    as [last Hlast]; [lia|].
  destruct (run_markers_kept events st _ _ Hlast) as (last' & Hlast' & _).
  apply lookup_lt_Some in Hlast'. lia.
Qed.

Lemma markers_never_removed_desk_3 :
  ∃ marker marker',
    features (mounted true) !! 2%nat = Some marker
    ∧ features
        (run (mounted true)
           ((ImageLoaded <$> seq 0 15)
            ++ [PointerMove (Some 2%nat); Click (Some 2%nat); PointerMove None]))
        !! 2%nat = Some marker'
    ∧ properties marker' = DeskFeature "desk-3"
    ∧ geometry marker' = Circle (333, 506) 25.
Proof.
  eexists _, _. split; [vm_compute; reflexivity|].
  match goal with
  | |- features (run ?st ?events) !! ?f = _ ∧ _ =>
      edestruct (markers_never_removed st events f) as [(m & Hm & Hp & Hg) _];
        [vm_compute; reflexivity|]
  end.
  split; [vm_compute; reflexivity|]. split; reflexivity.
Defined.

Section TimerSet.
Implicit Types (st : State) (timer : Timer).

Lemma step_timer_set t timer st e :
  e ≠ TimerFired t →
  timer_set t timer st → timer_set t timer (step st e).
Proof.
  intros He Hset.
  assert (∀ t' s, timer_set t timer s → timer_set t timer (setTimeout t' s))
    as HsetTimeout.
  { intros t' s [Hs Hlt]. split; cbn [timers nextTimer setTimeout set_nextTimer
                                      set_timers]; [|lia].
    by rewrite lookup_insert_ne by lia. }
  destruct e as [hit|hit|request|request|t']; cbn [step].
  - apply (pointermove_keeps (timer_set t timer)); kept.
  - apply (click_keeps (timer_set t timer)); first [by apply HsetTimeout|kept].
  - apply (settle_keeps (timer_set t timer)); first [by apply HsetTimeout|kept].
  - apply (settle_keeps (timer_set t timer)); first [by apply HsetTimeout|kept].
  - apply (click_timeout_keeps (timer_set t timer)); try kept.
    destruct Hset as [Hs Hlt]. split; [|done].
    cbn [timers set_timers]. rewrite lookup_delete_ne by congruence. done.
Qed.

Lemma run_timer_set t timer events st :
  Forall (λ e, e ≠ TimerFired t) events →
  timer_set t timer st → timer_set t timer (run st events).
Proof.
  revert st. induction events as [|e events IH]; intros st Hevents Hset; [done|].
  apply Forall_cons in Hevents as [He Hevents].
  cbn [run foldl]. by apply IH, step_timer_set.
Qed.

Lemma click_timeout_clears t timer st :
  timers st !! t = Some timer → timers (click_timeout t st) !! t = None.
Proof.
  intros Ht. unfold click_timeout. rewrite Ht.
  assert (timers (set_timers (delete t (timers st)) st) !! t = None) as Hgone
    by apply lookup_delete_eq.
  revert Hgone. generalize (set_timers (delete t (timers st)) st). intros st1 Hgone.
  destruct (properties <$> features st1 !! target timer) as [[profilePath|id]|];
    [|done..].
  apply (await_keeps (λ s, timers s !! t = None)); kept.
Qed.
End TimerSet.

(** X8.  The timer of a click is never cancelled and fires once: once set it
    stays set, with the same delay and the same marker, through every pointer
    move, click, image event and expiry of another timer, and its own expiry
    removes it. *)
Theorem click_timer_never_cancelled (st : State) (t : nat) (timer : Timer)
    (events : list Event) :
  timer_set t timer st →
  Forall (λ e, e ≠ TimerFired t) events →
  timer_set t timer (run st events)
  ∧ timers (step (run st events) (TimerFired t)) !! t = None.
Proof.
  intros Hset Hevents.
  pose proof (run_timer_set t timer events st Hevents Hset) as Hlater.
  split; [done|]. destruct Hlater as [Ht _].
  by apply (click_timeout_clears t timer).
Qed.

Lemma click_timer_never_cancelled_second_click :
  timer_set 0 {| delay := 200; target := 7%nat |}
    (step preloaded (Click (Some 7%nat)))
  ∧ Forall (λ e, e ≠ TimerFired 0)
      [PointerMove (Some 7%nat); Click (Some 7%nat); TimerFired 1%nat]
  ∧ timers
      (run (step preloaded (Click (Some 7%nat)))
         [PointerMove (Some 7%nat); Click (Some 7%nat); TimerFired 1%nat]) !! 0%nat
    = Some {| delay := 200; target := 7%nat |}.
Proof.
  assert (timer_set 0 {| delay := 200; target := 7%nat |}
            (step preloaded (Click (Some 7%nat)))) as Hset
    by (split; vm_compute; [reflexivity|lia]).
  assert (Forall (λ e, e ≠ TimerFired 0)
            [PointerMove (Some 7%nat); Click (Some 7%nat); TimerFired 1%nat])
    as Hevents by (repeat constructor; discriminate).
  split; [exact Hset|]. split; [exact Hevents|].
  exact (proj1 (proj1 (click_timer_never_cancelled _ _ _ _ Hset Hevents))).
Defined.

(** ** Without a 2d context *)

Section Quiet.
Context (n : nat) (cache : gmap string (gmap Z Style)) (log : list string).

Lemma step_quiet st e : quiet n cache log st → quiet n cache log (step st e).
Proof.
  intros Hquiet.
  assert (∀ r k s, canvas2d s = true →
                   cache_get (styleCache s) (rpath r) (rsize r) = None →
                   quiet n cache log s → quiet n cache log (park r k s)) as Hpark.
  { intros r k s Hs _ [Hs' _]. congruence. }
  destruct e as [hit|hit|request|request|t]; cbn [step].
  - apply (pointermove_keeps (quiet n cache log)); first [exact Hpark|kept].
  - apply (click_keeps (quiet n cache log)); first [exact Hpark|kept].
  - unfold settle. destruct Hquiet as (Hctx & Hrequests & Hrest).
    by rewrite Hrequests, lookup_empty.
  - unfold settle. destruct Hquiet as (Hctx & Hrequests & Hrest).
    by rewrite Hrequests, lookup_empty.
  - apply (click_timeout_keeps (quiet n cache log)); first [exact Hpark|kept].
Qed.

Lemma run_quiet events st :
  quiet n cache log st → quiet n cache log (run st events).
Proof.
  revert st. induction events as [|e events IH]; intros st Hquiet; [done|].
  cbn [run foldl]. by apply IH, step_quiet.
Qed.
End Quiet.

(** X9.  Where canvases give no 2d context, no handler ever waits for an
    image: starting with no request in flight, after any sequence of events
    there is still none, no request number was used, the style cache is
    untouched and [console.error] was not called. *)
Theorem without_context_nothing_is_fetched (st : State) (events : list Event) :
  canvas2d st = false →
  requests st = ∅ →
  canvas2d (run st events) = false
  ∧ requests (run st events) = ∅
  ∧ nextRequest (run st events) = nextRequest st
  ∧ styleCache (run st events) = styleCache st
  ∧ console (run st events) = console st.
Proof.
  intros Hctx Hrequests.
  by apply (run_quiet (nextRequest st) (styleCache st) (console st) events st).
Qed.

Lemma without_context_nothing_is_fetched_at_startup :
  canvas2d (mounted false) = false
  ∧ requests (mounted false) = ∅
  ∧ requests
      (run (mounted false)
         [PointerMove (Some 8%nat); Click (Some 7%nat); TimerFired 0%nat]) = ∅
  ∧ console
      (run (mounted false)
         [PointerMove (Some 8%nat); Click (Some 7%nat); TimerFired 0%nat]) = [].
Proof.
  split; [vm_compute; reflexivity|]. split; [vm_compute; reflexivity|].
  destruct (without_context_nothing_is_fetched (mounted false)
              [PointerMove (Some 8%nat); Click (Some 7%nat); TimerFired 0%nat])
    as (_ & Hrequests & _ & _ & Hconsole);
    [vm_compute; reflexivity|vm_compute; reflexivity|].
  split; [exact Hrequests|]. rewrite Hconsole. vm_compute; reflexivity.
Defined.

(** ** Failures are not remembered *)

(** X10.  A failed render leaves no trace in the cache, so the failure is not
    remembered: right after the [error] event of an image, the same call of
    [createProfileStyle] does not answer with the fallback style but draws a
    new canvas and fetches the image again. *)
Theorem failed_render_is_retried (st : State) (request : nat) (q : Request) :
  requests st !! request = Some q →
  canvas2d st = true →
  0 ≤ rsize (render q) →
  cache_get (styleCache st) (rpath (render q)) (rsize (render q)) = None →
  ∃ canvas,
    draw_backdrop (rsize (render q)) = Some canvas
    ∧ createProfileStyle (rpath (render q)) (rsize (render q))
        (step st (ImageFailed request))
      = (Pending {| rpath := rpath (render q); rsize := rsize (render q);
                    rcanvas := canvas |},
         step st (ImageFailed request)).
Proof.
  intros Hq Hctx Hsize Hmiss.
  assert (same_cache st (step st (ImageFailed request))) as [Hcache Hctx'].
  { rewrite (settle_onerror _ _ _ Hq). by apply resume_same_cache. }
  rewrite createProfileStyle_miss by congruence.
  rewrite draw_backdrop_nonneg by done. by eexists.
Qed.

Lemma failed_render_is_retried_first_preload :
  ∃ q canvas,
    requests (mounted true) !! 0%nat = Some q
    ∧ canvas2d (mounted true) = true
    ∧ 0 ≤ rsize (render q)
    ∧ cache_get (styleCache (mounted true)) (rpath (render q)) (rsize (render q))
      = None
    ∧ createProfileStyle "/profiles/profile1.jpeg" DEFAULT_MARKER_SIZE
        (step (mounted true) (ImageFailed 0%nat))
      = (Pending {| rpath := "/profiles/profile1.jpeg";
                    rsize := DEFAULT_MARKER_SIZE; rcanvas := canvas |},
         step (mounted true) (ImageFailed 0%nat)).
Proof.
  eexists _, _. split; [vm_compute; reflexivity|].
  match goal with
  | |- _ ∧ 0 ≤ rsize (render ?q) ∧ _ =>
      destruct (failed_render_is_retried (mounted true) 0%nat q)
        as (canvas & Hcanvas & Hcall);
        [vm_compute; reflexivity|vm_compute; reflexivity|by vm_compute
        |vm_compute; reflexivity|]
  end.
  split; [vm_compute; reflexivity|]. split; [by vm_compute|].
  split; [vm_compute; reflexivity|].
  vm_compute in Hcanvas. injection Hcanvas as <-. exact Hcall.
Defined.

(** ** Preloading *)




(** ** The marker loop *)

Lemma cached_marker_addFeature st marker location :
  cached_marker (addFeature marker st) location = cached_marker st location.
Proof. reflexivity. Qed.

Lemma add_profile_features_cached locations st markers :
  Forall2 (λ location marker, cached_marker st location = Some marker)
    locations markers →
  add_profile_features locations st = set_features (features st ++ markers) st.
Proof.
  revert st markers.
  induction locations as [|location rest IH]; intros st markers Hcached.
  - apply Forall2_nil_inv_l in Hcached as ->. cbn [add_profile_features].
    rewrite app_nil_r. by destruct st.
  - apply Forall2_cons_inv_l in Hcached as (marker & markers' & Hmarker & Hrest & ->).
    unfold cached_marker in Hmarker.
    destruct (cache_get (styleCache st) (profile location) DEFAULT_MARKER_SIZE)
      as [style|] eqn:Hstyle; [|done].
    injection Hmarker as <-.
    cbn [add_profile_features]. rewrite (await_hit _ _ _ _ _ _ Hstyle).
    rewrite (IH _ markers') by exact Hrest.
    cbn [features addFeature set_features]. rewrite <- app_assoc. reflexivity.
Qed.

(** X12.  When the default-size style of every location is in the cache,
    the marker loop puts one point feature per location onto the map, after
    the features that are there, in the order of the locations, each at the
    coordinates of its location with its image path and the cached style; it
    waits for nothing and changes nothing else. *)
Theorem markers_added_in_order (locations : list Location) (st : State)
    (markers : list Feature) :
  Forall2 (λ location marker, cached_marker st location = Some marker)
    locations markers →
  add_profile_features locations st = set_features (features st ++ markers) st
  ∧ length markers = length locations
  ∧ ∀ i location,
      locations !! i = Some location →
      ∃ marker,
        features (add_profile_features locations st) !! (length (features st) + i)%nat
        = Some marker
        ∧ geometry marker = Point (coords location)
        ∧ properties marker = ProfileFeature (profile location)
        ∧ cache_get (styleCache st) (profile location) DEFAULT_MARKER_SIZE
          = Some (fstyle marker).
Proof.
  intros Hcached.
  rewrite (add_profile_features_cached _ _ _ Hcached).
  split; [done|]. split; [symmetry; by eapply Forall2_length|].
  intros i location Hlocation.
  destruct (Forall2_lookup_l _ _ _ _ _ Hcached Hlocation) as (marker & Hmarker & Hc).
  exists marker. cbn [features set_features].
  split; [by rewrite lookup_app_r, Nat.add_comm, Nat.add_sub by lia|].
  unfold cached_marker in Hc.
  destruct (cache_get (styleCache st) (profile location) DEFAULT_MARKER_SIZE)
    as [style|]; [|done].
  by injection Hc as <-.
Qed.

Lemma markers_added_in_order_warm_cache :
  ∃ markers,
    Forall2 (λ location marker, cached_marker preloaded location = Some marker)
      DEFAULT_LOCATIONS markers
    ∧ add_profile_features DEFAULT_LOCATIONS preloaded
      = set_features (features preloaded ++ markers) preloaded
    ∧ length markers = 5%nat.
Proof.
  eexists. split.
  { unfold DEFAULT_LOCATIONS.
    repeat (eapply List.Forall2_cons; [vm_compute; reflexivity|]).
    apply List.Forall2_nil. }
  match goal with
  | |- add_profile_features _ _ = set_features (_ ++ ?markers) _ ∧ _ =>
      destruct (markers_added_in_order DEFAULT_LOCATIONS preloaded markers)
        as (Hloop & Hlength & _)
  end.
  { unfold DEFAULT_LOCATIONS.
    repeat (eapply List.Forall2_cons; [vm_compute; reflexivity|]).
    apply List.Forall2_nil. }
  split; [exact Hloop|reflexivity].
Defined.

(** X13.  The marker loop is sequential: with a 2d context, at the first
    location whose default-size style is not cached it waits for that image.
    The markers of the locations before it are on the map, the one of that
    location and of all locations after it are not, whether or not their
    styles are cached; they are added only when the image request settles. *)
Theorem marker_loop_waits_for_uncached (done rest : list Location)
    (location : Location) (markers : list Feature) (st : State) :
  Forall2 (λ location marker, cached_marker st location = Some marker)
    done markers →
  cache_get (styleCache st) (profile location) DEFAULT_MARKER_SIZE = None →
  canvas2d st = true →
  ∃ canvas,
    draw_backdrop DEFAULT_MARKER_SIZE = Some canvas
    ∧ add_profile_features (done ++ location :: rest) st
      = park {| rpath := profile location; rsize := DEFAULT_MARKER_SIZE;
                rcanvas := canvas |}
          (KInitStyle location rest)
          (set_features (features st ++ markers) st)
    ∧ length (features (add_profile_features (done ++ location :: rest) st))
      = (length (features st) + length done)%nat.
Proof.
  intros Hcached Hmiss Hctx.
  destruct (draw_backdrop DEFAULT_MARKER_SIZE) as [canvas|] eqn:Hcanvas;
    [|by vm_compute in Hcanvas].
  exists canvas. split; [done|].
  assert (add_profile_features (done ++ location :: rest) st
          = park {| rpath := profile location; rsize := DEFAULT_MARKER_SIZE;
                    rcanvas := canvas |}
              (KInitStyle location rest)
              (set_features (features st ++ markers) st)) as ->.
  { revert st markers Hcached Hmiss Hctx.
    induction done as [|first done IH]; intros st markers Hcached Hmiss Hctx.
    - apply Forall2_nil_inv_l in Hcached as ->. cbn [app add_profile_features].
      rewrite createProfileStyle_miss, Hcanvas by done.
      cbn [await]. rewrite app_nil_r. by destruct st.
    - apply Forall2_cons_inv_l in Hcached
        as (marker & markers' & Hmarker & Hrest & ->).
      unfold cached_marker in Hmarker.
      destruct (cache_get (styleCache st) (profile first) DEFAULT_MARKER_SIZE)
        as [style|] eqn:Hstyle; [|done].
      injection Hmarker as <-.
      cbn [app add_profile_features]. rewrite (await_hit _ _ _ _ _ _ Hstyle).
      rewrite (IH _ markers') by done.
      cbn [features addFeature set_features]. rewrite <- app_assoc. reflexivity. }
  split; [reflexivity|].
  cbn [features park set_nextRequest set_requests set_features].
  rewrite length_app. f_equal. symmetry. by eapply Forall2_length.
Qed.

Lemma marker_loop_waits_for_uncached_profile2 :
  ∃ markers canvas,
    Forall2 (λ location marker,
               cached_marker
                 (run (mounted true)
                    ((ImageLoaded <$> seq 0 3) ++ (ImageFailed <$> seq 3 3)
                     ++ (ImageLoaded <$> seq 6 8))) location = Some marker)
      [{| coords := (176, 325); profile := "/profiles/profile1.jpeg" |}] markers
    ∧ add_profile_features DEFAULT_LOCATIONS
        (run (mounted true)
           ((ImageLoaded <$> seq 0 3) ++ (ImageFailed <$> seq 3 3)
            ++ (ImageLoaded <$> seq 6 8)))
      = park {| rpath := "/profiles/profile2.jpeg"; rsize := DEFAULT_MARKER_SIZE;
                rcanvas := canvas |}
          (KInitStyle {| coords := (176, 94); profile := "/profiles/profile2.jpeg" |}
             [{| coords := (232, 506); profile := "/profiles/profile3.jpeg" |};
              {| coords := (427, 506); profile := "/profiles/profile4.jpeg" |};
              {| coords := (309, 176); profile := "/profiles/profile1.jpeg" |}])
          (set_features
             (features
                (run (mounted true)
                   ((ImageLoaded <$> seq 0 3) ++ (ImageFailed <$> seq 3 3)
                    ++ (ImageLoaded <$> seq 6 8))) ++ markers)
             (run (mounted true)
                ((ImageLoaded <$> seq 0 3) ++ (ImageFailed <$> seq 3 3)
                 ++ (ImageLoaded <$> seq 6 8)))).
Proof.
  eexists _, _. split.
  { eapply List.Forall2_cons; [vm_compute; reflexivity|]. apply List.Forall2_nil. }
  match goal with
  | |- add_profile_features _ ?st = park _ _ (set_features (_ ++ ?markers) _) =>
      destruct (marker_loop_waits_for_uncached
                  [{| coords := (176, 325); profile := "/profiles/profile1.jpeg" |}]
                  [{| coords := (232, 506); profile := "/profiles/profile3.jpeg" |};
                   {| coords := (427, 506); profile := "/profiles/profile4.jpeg" |};
                   {| coords := (309, 176); profile := "/profiles/profile1.jpeg" |}]
                  {| coords := (176, 94); profile := "/profiles/profile2.jpeg" |}
                  markers st) as (canvas & Hcanvas & Hloop & _)
  end.
  { eapply List.Forall2_cons; [vm_compute; reflexivity|]. apply List.Forall2_nil. }
  { vm_compute; reflexivity. }
  { vm_compute; reflexivity. }
  vm_compute in Hcanvas. injection Hcanvas as <-. exact Hloop.
Defined.

(** ** Hovering while the hover style is not cached *)






(** ** Hovering a desk *)

(** X15.  Hovering a desk needs no image and no cache: with nothing hovered,
    a pointer move onto a desk gives it [deskHoverStyle] in the same task and
    starts no request, and the next pointer move to anything else gives it
    [deskStyle] back, whatever is or is not in the style cache. *)
Theorem desk_hover_needs_no_cache (st : State) (f : nat) (desk : Feature)
    (id : string) (hit : option nat) :
  features st !! f = Some desk →
  properties desk = DeskFeature id →
  hoveredFeature st = None →
  hit ≠ Some f →
  step st (PointerMove (Some f))
    = hover_apply f deskHoverStyle (set_cursor "pointer" st)
  ∧ features (step st (PointerMove (Some f))) !! f = Some (setStyle deskHoverStyle desk)
  ∧ requests (step st (PointerMove (Some f))) = requests st
  ∧ features (run st [PointerMove (Some f); PointerMove hit]) !! f
    = Some (setStyle deskStyle desk)
  ∧ hoveredFeature (run st [PointerMove (Some f); PointerMove hit]) ≠ Some f.
Proof.
  intros Hf Hprops Hidle Hhit.
  assert (step st (PointerMove (Some f))
          = hover_apply f deskHoverStyle (set_cursor "pointer" st)) as Honto.
  { cbn [step]. unfold pointermove.
    rewrite (forEachFeatureAtPixel_on_map _ _ _ Hf).
    cbn [hoveredFeature set_cursor]. rewrite Hidle.
    unfold hover_enter. cbn [hoveredFeature features set_cursor]. rewrite Hidle.
    destruct (decide (None = Some f)); [done|].
    rewrite Hf. cbn [fmap option_fmap option_map]. by rewrite Hprops. }
  assert (features (step st (PointerMove (Some f))) !! f
          = Some (setStyle deskHoverStyle desk)) as Hhovered.
  { rewrite Honto. unfold hover_apply. cbn [features set_hoveredFeature].
    rewrite feature_setStyle_lookup. cbn [features set_cursor]. by rewrite Hf. }
  split; [done|]. split; [done|]. split; [by rewrite Honto|].
  cbn [run foldl].
  apply (pointermove_away (step st (PointerMove (Some f))) f
           (setStyle deskHoverStyle desk) hit deskStyle); [|done| |done].
  - by rewrite Honto.
  - unfold default_style. cbn [properties setStyle]. by rewrite Hprops.
Qed.

Lemma desk_hover_needs_no_cache_at_startup :
  ∃ desk,
    features (mounted true) !! 0%nat = Some desk
    ∧ properties desk = DeskFeature "desk-1"
    ∧ hoveredFeature (mounted true) = None
    ∧ styleCache (mounted true) = ∅
    ∧ fstyle <$>
        features (run (mounted true) [PointerMove (Some 0%nat); PointerMove None])
          !! 0%nat
      = Some deskStyle.
Proof.
  eexists. split; [vm_compute; reflexivity|].
  match goal with
  | |- properties ?desk = _ ∧ _ =>
      destruct (desk_hover_needs_no_cache (mounted true) 0%nat desk "desk-1" None)
        as (_ & _ & _ & Hback & _);
        [vm_compute; reflexivity|reflexivity|vm_compute; reflexivity|done|]
  end.
  split; [reflexivity|]. split; [vm_compute; reflexivity|].
  split; [vm_compute; reflexivity|]. by rewrite Hback.
Defined.

(** ** Layout and initial zoom *)

(** X16.  Whatever the window, the map height that [calculateMapHeight] sets
    is a whole number of pixels between 400 and 1200.  On a window at least
    1024 wide it is the window height minus 120 where that lies in the range,
    400 below it and 1200 above it.  The result does not depend on the height
    that was set before, so a second computation for the same window changes
    nothing; without a window nothing is set. *)
Theorem calculateMapHeight_bounds (w : Window) (st : State) :
  ∃ h,
    calculateMapHeight (Some w) st = setMapHeight (pretty h +:+ "px") st
    ∧ MIN_MAP_HEIGHT ≤ h ≤ MAX_MAP_HEIGHT
    ∧ (1024 ≤ innerWidth w → innerHeight w ≤ 520 → h = 400)
    ∧ (1024 ≤ innerWidth w → 520 ≤ innerHeight w ≤ 1320 → h = innerHeight w - 120)
    ∧ (1024 ≤ innerWidth w → 1320 ≤ innerHeight w → h = 1200)
    ∧ calculateMapHeight (Some w) (calculateMapHeight (Some w) st)
      = calculateMapHeight (Some w) st
    ∧ calculateMapHeight None st = st.
Proof.
  unfold calculateMapHeight, MIN_MAP_HEIGHT, MAX_MAP_HEIGHT, HEADER_FOOTER_SPACE.
  destruct (Z.ltb_spec (innerWidth w) 1024) as [Hnarrow|Hwide].
  - exists 600. split; [done|]. split; [lia|].
    split; [lia|]. split; [lia|]. split; [lia|]. done.
  - exists (Z.min (Z.max (innerHeight w - 120) 400) 1200).
    split; [done|]. split; [lia|].
    split; [lia|]. split; [lia|]. split; [lia|]. done.
Qed.

(** X17.  The zoom that the view is created with is 1 or 2 and lies within
    the view's own limits, [minZoom] 1 and [maxZoom] 3.5: a container narrower
    than 1024 pixels, or none, starts at zoom 1, any other at zoom 2. *)
Theorem calculateInitialZoom_within_limits (clientWidth : option Z) :
  (minZoom (viewOptions clientWidth)
     <= inject_Z (zoom (viewOptions clientWidth)))%Q
  ∧ (inject_Z (zoom (viewOptions clientWidth))
       <= maxZoom (viewOptions clientWidth))%Q
  ∧ (zoom (viewOptions clientWidth) = 2
     ↔ ∃ width, clientWidth = Some width ∧ 1024 ≤ width)
  ∧ (zoom (viewOptions clientWidth) = 1
     ↔ ∀ width, clientWidth = Some width → width < 1024).
Proof.
  unfold viewOptions, calculateInitialZoom. cbn [zoom minZoom maxZoom].
  destruct clientWidth as [width|].
  - destruct (Z.ltb_spec width 1024) as [Hnarrow|Hwide].
    + split; [done|]. split; [done|]. split; split.
      * discriminate.
      * intros (width' & [= <-] & Hwide). lia.
      * by intros _ width' [= <-].
      * done.
    + split; [done|]. split; [done|]. split; split.
      * intros _. by exists width.
      * done.
      * discriminate.
      * intros Hnarrow. specialize (Hnarrow width eq_refl). lia.
  - split; [done|]. split; [done|]. split; split.
    + discriminate.
    + by intros (width & [=] & _).
    + by intros _ width.
    + done.
Qed.
